(** * Netflix recommendation system: a shallow embedding of [app.py]

    The program loads a catalog ([df]), builds a title index ([indices]),
    computes a TF-IDF / cosine similarity matrix ([compute_cosine_similarity])
    and answers title based queries ([recommend_by_title]).  Posters come from
    an HTTP collaborator ([fetch_poster]).

    Python exceptions are values of [exception]; a computation that may raise
    returns a [result].  pandas objects are modelled by what the program
    observes of them: a data frame is the list of its rows (the label of a row
    is its position, as [pd.read_csv] assigns a [RangeIndex]), a [Series] is
    the association list of its (label, value) pairs, in order and with
    duplicates. *)

From Stdlib Require Import String Ascii List ZArith Bool Arith Lia.
From Stdlib Require Import Sorting.Sorted Permutation.
From Stdlib Require Import Reals Lra.
From Stdlib Require Floats.PrimFloat.
Import ListNotations.

Set Implicit Arguments.

(** ** Exceptions and results *)

(** A key of a lookup: a title, or a row position. *)
Inductive label : Type :=
| LStr (s : string)
| LInt (n : nat).

Inductive exception : Type :=
| KeyError (key : label)
| IndexError
| ValueError (msg : string)
| AttributeError
| TypeError
| ZeroDivisionError
| RequestException.

Inductive result (A : Type) : Type :=
| Ok (a : A)
| Raise (e : exception).

Arguments Ok {A} a.
Arguments Raise {A} e.

Definition bind {A B : Type} (m : result A) (k : A -> result B) : result B :=
  match m with
  | Ok a => k a
  | Raise e => Raise e
  end.

Declare Scope py_scope.
Delimit Scope py_scope with py.
Notation "x <- m ;; k" := (bind m (fun x => k))
  (at level 61, m at next level, right associativity) : py_scope.
Open Scope py_scope.

Fixpoint mapM {A B : Type} (f : A -> result B) (l : list A) : result (list B) :=
  match l with
  | [] => Ok []
  | x :: xs => y <- f x ;; ys <- mapM f xs ;; Ok (y :: ys)
  end.

(** A list comprehension [[x for x in l if p x]] whose condition may raise. *)
Fixpoint filterM {A : Type} (p : A -> result bool) (l : list A) : result (list A) :=
  match l with
  | [] => Ok []
  | x :: xs =>
      b <- p x ;; ys <- filterM p xs ;; Ok (if b then x :: ys else ys)
  end.

(** ** Python built-ins used by the program *)

(** [list(enumerate(l))] *)
Fixpoint enumerate_from {A : Type} (k : nat) (l : list A) : list (nat * A) :=
  match l with
  | [] => []
  | x :: xs => (k, x) :: enumerate_from (S k) xs
  end.

Definition enumerate {A : Type} (l : list A) : list (nat * A) := enumerate_from 0 l.

(** [sorted(l, key=key, reverse=reverse)].  Python's sort is stable and only
    ever asks [<] of two keys; on a total order every stable sort returns the
    same list, so a stable insertion sort stands for it.  With [reverse=True]
    the keys descend and equal keys keep their original order. *)
Section Sorted.
Variables (A K : Type) (key : A -> K) (ltb : K -> K -> bool).

Fixpoint insert_sorted (reverse : bool) (x : A) (l : list A) : list A :=
  match l with
  | [] => [x]
  | y :: ys =>
      if (if reverse then ltb (key x) (key y) else ltb (key y) (key x))
      then y :: insert_sorted reverse x ys
      else x :: y :: ys
  end.

Definition sorted (reverse : bool) (l : list A) : list A :=
  fold_right (insert_sorted reverse) [] l.
End Sorted.

(** [l[:n]] for a Python integer [n]: a negative [n] counts from the end. *)
Definition slice_to {A : Type} (n : Z) (l : list A) : list A :=
  if (0 <=? n)%Z then firstn (Z.to_nat n) l
  else firstn (length l - Z.to_nat (- n)) l.

(** ** The catalog *)

(** One row.  [pd.read_csv] reads an empty field as the missing value NaN;
    [content], the one column handed to a library that tells a missing value
    from a string, is [None] for it.  The other columns are only compared or
    displayed and are kept as strings. *)
Record CatalogEntry : Type := {
  title : string;
  type : string;
  content : option string;
  release_year : Z;
  rating : string;
  duration : string;
  listed_in : string;
  description : string
}.

(** [df = pd.read_csv("clean_data.csv")]: the rows in source order; row [k]
    carries the index label [k]. *)
Definition DataFrame : Type := list CatalogEntry.

(** [df.index] *)
Definition df_index (df : DataFrame) : list nat := seq 0 (length df).

(** [df['title']] *)
Definition df_title (df : DataFrame) : list string := map title df.

(** [df.iloc[k]] *)
Definition iloc (df : DataFrame) (k : nat) : result CatalogEntry :=
  match nth_error df k with
  | Some e => Ok e
  | None => Raise IndexError
  end.

(** [df.iloc[ks]]: the selected rows, each with its index label. *)
Definition iloc_list (df : DataFrame) (ks : list nat) : result (list (nat * CatalogEntry)) :=
  mapM (fun k => e <- iloc df k ;; Ok (k, e)) ks.

(** [df.loc[label, 'type']] for an integer label of the [RangeIndex]. *)
Definition loc_type (df : DataFrame) (row_label : nat) : result string :=
  match nth_error df row_label with
  | Some e => Ok (type e)
  | None => Raise (KeyError (LInt row_label))
  end.

(** ** pandas Series: [indices] *)

Definition Series : Type := list (string * nat).

(** [pd.Series(values, index=labels)] *)
Definition Series_new (values : list nat) (labels : list string) : Series :=
  combine labels values.

(** [Series.drop_duplicates()] (keep='first'): drops the entries whose VALUE
    was already seen; labels play no part. *)
Fixpoint drop_duplicates_from (seen : list nat) (s : Series) : Series :=
  match s with
  | [] => []
  | (l, v) :: rest =>
      if existsb (Nat.eqb v) seen then drop_duplicates_from seen rest
      else (l, v) :: drop_duplicates_from (v :: seen) rest
  end.

Definition drop_duplicates (s : Series) : Series := drop_duplicates_from [] s.

(** What [s[label]] evaluates to: the value when the label occurs once, the
    sub-series of all matching values when it occurs several times. *)
Inductive selection : Type :=
| Scalar (v : nat)
| SubSeries (vs : list nat).

(** [s[label]] *)
Definition Series_getitem (s : Series) (key : string) : result selection :=
  match filter (fun lv => String.eqb (fst lv) key) s with
  | [] => Raise (KeyError (LStr key))
  | [(_, v)] => Ok (Scalar v)
  | many => Ok (SubSeries (map snd many))
  end.

(** [indices = pd.Series(df.index, index=df['title']).drop_duplicates()] *)
Definition indices (df : DataFrame) : Series :=
  drop_duplicates (Series_new (df_index df) (df_title df)).

(** The entries [indices[t]] selects: one per row titled [t]. *)
Definition labelled (df : DataFrame) (t : string) : Series :=
  filter (fun lv => String.eqb (fst lv) t) (indices df).

(** ** The recommendation engine *)

(** The rows that may be recommended for the row [idx] of type [input_type]:
    the condition of the comprehension in [recommend_by_title], read on the
    row position alone. *)
Definition is_candidate (df : DataFrame) (input_type : string) (idx k : nat) : bool :=
  match nth_error df k with
  | Some e => String.eqb (type e) input_type && negb (Nat.eqb k idx)
  | None => false
  end.

Definition candidates (df : DataFrame) (input_type : string) (idx : nat) : list nat :=
  filter (is_candidate df input_type idx) (df_index df).

(** [a] stands before [b] in [l]. *)
Definition ranked_before {A : Type} (a b : A) (l : list A) : Prop :=
  exists l1 l2 l3, l = l1 ++ a :: l2 ++ b :: l3.


Definition ambiguous_truth_value : string :=
  "The truth value of an array with more than one element is ambiguous. Use a.any() or a.all()".

Section Engine.
(** The entries of [cosine_sim] and their [<]. *)
Context {score : Type} (score_ltb : score -> score -> bool).

(** [cosine_sim[idx]] *)
Definition matrix_row (cosine_sim : list (list score)) (idx : nat) : result (list score) :=
  match nth_error cosine_sim idx with
  | Some r => Ok r
  | None => Raise IndexError
  end.

(** The condition of the comprehension:
    [df.iloc[i[0]]['type'] == input_type and i[0] != idx] *)
Definition keep (df : DataFrame) (input_type : string) (idx : nat)
    (i : nat * score) : result bool :=
  e <- iloc df (fst i) ;;
  Ok (String.eqb (type e) input_type && negb (Nat.eqb (fst i) idx)).

(** [recommend_by_title(title, n)].  [df] and [cosine_sim] are the module's
    globals; [indices] is the one built from [df].

    When [indices[title]] is a sub-series (the title labels several rows),
    [cosine_sim[idx]] is the two-dimensional array of those rows,
    [enumerate] pairs each of them with its rank, and [sorted] compares two
    row arrays with [<]: numpy refuses to turn the element-wise answer into
    a truth value and raises [ValueError]. *)
Definition recommend_by_title (df : DataFrame) (cosine_sim : list (list score))
    (title : string) (n : Z) : result (list (nat * CatalogEntry)) :=
  idx <- Series_getitem (indices df) title ;;
  match idx with
  | Scalar idx =>
      input_type <- loc_type df idx ;;
      row <- matrix_row cosine_sim idx ;;
      let sim_scores := enumerate row in
      let sim_scores := sorted (@snd nat score) score_ltb true sim_scores in
      filtered <- filterM (keep df input_type idx) sim_scores ;;
      let rec_indices := map fst (slice_to n filtered) in
      iloc_list df rec_indices
  | SubSeries idxs =>
      _ <- mapM (loc_type df) idxs ;;
      _ <- mapM (matrix_row cosine_sim) idxs ;;
      Raise (ValueError ambiguous_truth_value)
  end.

(** The call the page makes: [recommend_by_title(selected_title)], [n=6]. *)
Definition recommend_by_title_default df cosine_sim title :=
  recommend_by_title df cosine_sim title 6.
End Engine.

(** ** Text vectorizer: [TfidfVectorizer(stop_words='english', max_features=5000)]

    scikit-learn is not part of the repository; the definitions below follow
    its algorithm.  Text is modelled as ASCII: a word character is a letter, a
    digit or an underscore, and a character outside ASCII separates tokens,
    where the library's Unicode-aware pattern may keep it inside one.  The
    properties below use the analyzer through a content having no term, or
    two contents having none in common.  The list of English stop words is a constant of
    the library and is taken as a parameter [stop_words].  Numbers are real
    numbers; [divide] raises [ZeroDivisionError] where numpy would produce
    [inf] or [nan]. *)

Definition is_word_char (c : ascii) : bool :=
  let n := nat_of_ascii c in
  ((48 <=? n) && (n <=? 57)) || ((65 <=? n) && (n <=? 90)) ||
  ((97 <=? n) && (n <=? 122)) || (n =? 95).

Definition lower_char (c : ascii) : ascii :=
  let n := nat_of_ascii c in
  if (65 <=? n) && (n <=? 90) then ascii_of_nat (n + 32) else c.

(** [doc.lower()] *)
Fixpoint lower (s : string) : string :=
  match s with
  | EmptyString => EmptyString
  | String c rest => String (lower_char c) (lower rest)
  end.

(** A maximal run of word characters is a token when it has two characters
    or more (the token pattern [\b\w\w+\b]). *)
Definition flush (run : string) : list string :=
  if 2 <=? String.length run then [run] else [].

Fixpoint tokenize_from (run : string) (s : string) : list string :=
  match s with
  | EmptyString => flush run
  | String c rest =>
      if is_word_char c then tokenize_from (run ++ String c EmptyString) rest
      else flush run ++ tokenize_from EmptyString rest
  end.

Definition tokenize (s : string) : list string := tokenize_from EmptyString s.

Definition mem (t : string) (l : list string) : bool := existsb (String.eqb t) l.

(** The analyzer: lower-case, tokenize, drop the stop words. *)
Definition analyze (stop_words : list string) (doc : string) : list string :=
  filter (fun t => negb (mem t stop_words)) (tokenize (lower doc)).

(** A missing document is refused. *)
Definition decode (doc : option string) : result string :=
  match doc with
  | Some d => Ok d
  | None =>
      Raise (ValueError "np.nan is an invalid document, expected byte or unicode string.")
  end.

(** Occurrences of the term [t] in an analyzed document. *)
Definition term_count (t : string) (doc : list string) : nat :=
  count_occ string_dec doc t.

(** Occurrences of [t] in the corpus, and the number of documents it occurs in. *)
Definition corpus_count (docs : list (list string)) (t : string) : nat :=
  list_sum (map (term_count t) docs).

Definition document_frequency (docs : list (list string)) (t : string) : nat :=
  length (filter (fun doc => 0 <? term_count t doc) docs).

(** The terms of the corpus, sorted. *)
Definition all_terms (docs : list (list string)) : list string :=
  sorted (fun t : string => t) String.ltb false (nodup string_dec (concat docs)).

(** [max_features]: when there are more terms, only the [max_features] most
    frequent in the corpus are kept, in their sorted order.  (numpy's
    [argsort] settles ties between equally frequent terms; a stable order
    stands for it.) *)
Definition limit_features (max_features : nat) (docs : list (list string))
    (terms : list string) : list string :=
  if length terms <=? max_features then terms
  else
    let top := firstn max_features (sorted (corpus_count docs) Nat.ltb true terms) in
    filter (fun t => mem t top) terms.

(** The attribute [vocabulary_] after fitting. *)
Definition vocabulary (max_features : nat) (docs : list (list string)) : list string :=
  limit_features max_features docs (all_terms docs).

Definition divide (x y : R) : result R :=
  if Req_dec_T y 0 then Raise ZeroDivisionError else Ok (x / y)%R.

(** Smoothed inverse document frequency: [ln((1 + n) / (1 + df)) + 1]. *)
Definition idf (docs : list (list string)) (t : string) : result R :=
  q <- divide (1 + INR (length docs)) (1 + INR (document_frequency docs t)) ;;
  Ok (ln q + 1)%R.

Definition sum_squares (row : list R) : R :=
  fold_right Rplus 0%R (map (fun x => x * x)%R row).

(** L2 normalisation of one row of a sparse matrix: a row without a non-zero
    entry is skipped, any other is divided by its norm. *)
Definition normalize_row (row : list R) : result (list R) :=
  let s := sum_squares row in
  if Req_dec_T s 0 then Ok row
  else mapM (fun x => divide x (sqrt s)) row.

(** [normalize(X)] *)
Definition normalize (X : list (list R)) : result (list (list R)) :=
  mapM normalize_row X.

(** The TF-IDF weights of a document, before normalisation. *)
Definition weigh (idfs : list R) (counts : list nat) : list R :=
  map (fun p => (INR (fst p) * snd p)%R) (combine counts idfs).

(** [tfidf.fit_transform(raw_documents)] *)
Definition fit_transform (stop_words : list string) (max_features : nat)
    (raw_documents : list (option string)) : result (list (list R)) :=
  texts <- mapM decode raw_documents ;;
  let docs := map (analyze stop_words) texts in
  match concat docs with
  | [] =>
      Raise (ValueError "empty vocabulary; perhaps the documents only contain stop words")
  | _ :: _ =>
      let terms := vocabulary max_features docs in
      let counts := map (fun doc => map (fun t => term_count t doc) terms) docs in
      idfs <- mapM (idf docs) terms ;;
      normalize (map (weigh idfs) counts)
  end.

Definition dot (u v : list R) : R :=
  fold_right Rplus 0%R (map (fun p => (fst p * snd p)%R) (combine u v)).

(** [cosine_similarity(X, Y)]: both arguments are normalised, then every row
    of the first is multiplied with every row of the second. *)
Definition cosine_similarity (X Y : list (list R)) : result (list (list R)) :=
  X_normalized <- normalize X ;;
  Y_normalized <- normalize Y ;;
  Ok (map (fun u => map (dot u) Y_normalized) X_normalized).

(** [compute_cosine_similarity(data)] *)
Definition compute_cosine_similarity (stop_words : list string) (data : DataFrame)
  : result (list (list R)) :=
  tfidf_matrix <- fit_transform stop_words 5000 (map content data) ;;
  cosine_similarity tfidf_matrix tfidf_matrix.

(** [M[i][j]] *)
Definition entry_at (M : list (list R)) (i j : nat) : option R :=
  match nth_error M i with
  | Some row => nth_error row j
  | None => None
  end.

(** The analyzed documents of a catalog whose contents are all present. *)
Definition analyzed (stop_words : list string) (data : DataFrame) : list (list string) :=
  map (fun e => match content e with
                | Some c => analyze stop_words c
                | None => []
                end) data.

(** A document has a feature when one of its terms is in the vocabulary. *)
Definition has_feature (terms doc : list string) : bool :=
  existsb (fun t => mem t terms) doc.

(** *** The values the vectorizer computes

    The functions above thread the failures of scikit-learn; the ones below
    are the values they return when nothing fails. *)

Definition present (e : CatalogEntry) : bool :=
  match content e with
  | Some _ => true
  | None => false
  end.

Definition idf_value (docs : list (list string)) (t : string) : R :=
  (ln ((1 + INR (length docs)) / (1 + INR (document_frequency docs t))) + 1)%R.

Definition normalized (row : list R) : list R :=
  if Req_dec_T (sum_squares row) 0 then row
  else map (fun x => x / sqrt (sum_squares row))%R row.

(** The TF-IDF weights of a document over the vocabulary [terms]. *)
Definition weights (docs : list (list string)) (terms doc : list string) : list R :=
  map (fun t => (INR (term_count t doc) * idf_value docs t)%R) terms.

(** The rows [cosine_similarity] multiplies: the TF-IDF rows, normalised by
    the vectorizer and once more by [cosine_similarity]. *)
Definition feature_rows (max_features : nat) (docs : list (list string)) : list (list R) :=
  map (fun doc => normalized (normalized (weights docs (vocabulary max_features docs) doc)))
    docs.

Definition similarity (U : list (list R)) : list (list R) :=
  map (fun u => map (dot u) U) U.

(** [<] on the scores of the program's matrix. *)
Definition Rltb (x y : R) : bool := if Rlt_dec x y then true else false.

(** The page's query against the module's globals: [cosine_sim] is the matrix
    computed from [df] when the module is loaded. *)
Definition recommend (stop_words : list string) (df : DataFrame) (title : string)
  : result (list (nat * CatalogEntry)) :=
  cosine_sim <- compute_cosine_similarity stop_words df ;;
  recommend_by_title_default Rltb df cosine_sim title.

(** ** The poster lookup

    [fetch_poster] talks to the TMDB search API through [requests.get].  The
    program asks one question of the network; [io] records it together with
    what the program does with the answer, and [run] plays it against a
    network.  [fetch_poster] is the function as written; the memoisation
    that the [st.cache_data] decorator adds is [fetch_poster_cached]. *)

(** What [response.json()] returns.  A number is modelled by an integer: the
    program only tests whether it is zero. *)
#[warnings="-register-all"]
Inductive json : Type :=
| JNull
| JBool (b : bool)
| JNumber (z : Z)
| JString (s : string)
| JArray (items : list json)
| JObject (members : list (string * json)).

(** Python's truth value of a decoded JSON value. *)
Definition truthy (j : json) : bool :=
  match j with
  | JNull => false
  | JBool b => b
  | JNumber z => negb (z =? 0)%Z
  | JString s => negb (String.eqb s "")
  | JArray items => match items with [] => false | _ => true end
  | JObject members => match members with [] => false | _ => true end
  end.

(** [d.get(key)] on a dict: [None] when the key is missing. *)
Fixpoint dict_get (members : list (string * json)) (key : string) : json :=
  match members with
  | [] => JNull
  | (k, v) :: rest => if String.eqb k key then v else dict_get rest key
  end.

(** [x.get(key)] on any decoded value: only a dict has the method. *)
Definition py_get (x : json) (key : string) : result json :=
  match x with
  | JObject members => Ok (dict_get members key)
  | _ => Raise AttributeError
  end.

(** [x[0]] on a decoded value. *)
Definition py_item0 (x : json) : result json :=
  match x with
  | JArray (first :: _) => Ok first
  | JArray [] => Raise IndexError
  | JString (String c _) => Ok (JString (String c EmptyString))
  | JString EmptyString => Raise IndexError
  | JObject _ => Raise (KeyError (LInt 0))
  | JNull | JBool _ | JNumber _ => Raise TypeError
  end.

(** ["https://image.tmdb.org/t/p/w500" + poster_path] *)
Definition poster_url (poster_path : json) : result string :=
  match poster_path with
  | JString p => Ok ("https://image.tmdb.org/t/p/w500" ++ p)%string
  | _ => Raise TypeError
  end.

Record request : Type := {
  url : string;
  params : list (string * string);
  timeout : Z
}.

(** The outcome of [requests.get]: a response with its status code and its
    body ([None] when the body is not JSON, in which case [response.json()]
    raises [requests.exceptions.JSONDecodeError], a [RequestException] since
    requests 2.27), or a [RequestException] (connection error, timeout). *)
Inductive reply : Type :=
| Response (status_code : Z) (body : option json)
| Failure.

Inductive io (A : Type) : Type :=
| Return (r : result A)
| Get (req : request) (k : reply -> result A).

Arguments Return {A} r.
Arguments Get {A} req k.

Definition run {A : Type} (network : request -> reply) (p : io A) : result A :=
  match p with
  | Return r => r
  | Get req k => k (network req)
  end.

(** [TMDB_API_KEY = os.getenv("TMDB_API_KEY")] is [None] or a string;
    [not TMDB_API_KEY] holds for [None] and for the empty string. *)
Definition key_set (TMDB_API_KEY : option string) : bool :=
  match TMDB_API_KEY with
  | Some k => negb (String.eqb k "")
  | None => false
  end.

Definition movie_endpoint : string := "https://api.themoviedb.org/3/search/movie".
Definition tv_endpoint : string := "https://api.themoviedb.org/3/search/tv".

(** The [if content_type == "Movie"] dispatch. *)
Definition search_url (content_type : string) : string :=
  if String.eqb content_type "Movie" then movie_endpoint else tv_endpoint.

Definition poster_request (key title content_type : string) : request :=
  {| url := search_url content_type;
     params := [("api_key", key); ("query", title)]%string;
     timeout := 5 |}.

(** The body of the [try] block from [response = requests.get(...)] on. *)
Definition read_poster (r : reply) : result (option string) :=
  match r with
  | Failure => Raise RequestException
  | Response status_code body =>
      if negb (status_code =? 200)%Z then Ok None
      else
        data <- match body with
                | Some d => Ok d
                | None => Raise RequestException
                end ;;
        results <- py_get data "results" ;;
        if truthy results then
          first <- py_item0 results ;;
          poster_path <- py_get first "poster_path" ;;
          if truthy poster_path then
            u <- poster_url poster_path ;; Ok (Some u)
          else Ok None
        else Ok None
  end.

(** [except requests.exceptions.RequestException: return None] *)
Definition except_RequestException (r : result (option string)) : result (option string) :=
  match r with
  | Raise RequestException => Ok None
  | _ => r
  end.

(** [fetch_poster(title, content_type)], with the global [TMDB_API_KEY]. *)
Definition fetch_poster (TMDB_API_KEY : option string) (title content_type : string)
  : io (option string) :=
  match TMDB_API_KEY with
  | Some key =>
      if key_set (Some key)
      then Get (poster_request key title content_type)
               (fun r => except_RequestException (read_poster r))
      else Return (Ok None)
  | None => Return (Ok None)
  end.

(** The bodies the lookup is written for: an object whose ["results"] is
    missing or falsy, or an array starting with an object whose
    ["poster_path"] is missing, falsy or a string. *)
Definition poster_path_shaped (p : json) : bool :=
  match p with
  | JString _ => true
  | _ => negb (truthy p)
  end.

Definition tmdb_shaped (data : json) : bool :=
  match data with
  | JObject members =>
      let results := dict_get members "results" in
      if truthy results then
        match results with
        | JArray (JObject first :: _) => poster_path_shaped (dict_get first "poster_path")
        | _ => false
        end
      else true
  | _ => false
  end.


(** Sample networks. *)
Definition network_with_poster (_ : request) : reply :=
  Response 200
    (Some (JObject [("page", JNumber 1);
                    ("results", JArray [JObject [("id", JNumber 603);
                                                 ("poster_path", JString "/abc.jpg")]])]%string)).

Definition network_with_array_body (_ : request) : reply :=
  Response 200 (Some (JArray [])).

(** ** Sample catalogs *)

Definition entry (t ty c : string) : CatalogEntry :=
  {| title := t; type := ty; content := Some c; release_year := 2020;
     rating := "PG-13"; duration := "90 min"; listed_in := "Sci-Fi";
     description := c |}.

(** The catalog of the specification's scenario. *)
Definition scenario_df : DataFrame :=
  [ entry "A" "Movie" "space adventure robots";
    entry "B" "Movie" "space adventure aliens";
    entry "C" "TV Show" "space adventure robots" ].

(** Four movies; seen from "A", "B" and "C" are equally similar. *)
Definition tie_df : DataFrame :=
  [ entry "A" "Movie" "space robots";
    entry "B" "Movie" "space aliens";
    entry "C" "Movie" "space pirates";
    entry "D" "Movie" "space robots" ].

(** A catalog in which the title "A" labels two rows. *)
Definition duplicate_df : DataFrame :=
  [ entry "A" "Movie" "space adventure robots";
    entry "B" "Movie" "space adventure aliens";
    entry "A" "Movie" "ocean documentary" ].

(** Similarity matrices with scores in thousandths, compared by [Z.ltb]. *)
Definition scenario_sim : list (list Z) :=
  [ [1000; 500; 1000]; [500; 1000; 500]; [1000; 500; 1000] ]%Z.

Definition tie_sim : list (list Z) :=
  [ [1000; 300; 300; 1000]; [300; 1000; 300; 300];
    [300; 300; 1000; 300]; [1000; 300; 300; 1000] ]%Z.

Definition duplicate_sim : list (list Z) :=
  [ [1000; 500; 0]; [500; 1000; 0]; [0; 0; 1000] ]%Z.

(** Some of scikit-learn's English stop words. *)
Definition sample_stop_words : list string :=
  ["the"; "and"; "of"; "in"; "to"; "is"]%string.

(** A catalog with an entry whose content is the empty string, one whose
    content is stop words only, and one with terms. *)
Definition sparse_df : DataFrame :=
  [ entry "A" "Movie" "";
    entry "B" "Movie" "The, and of THE";
    entry "C" "Movie" "space robots" ].

(** Catalogs on which the vectorizer fails. *)
Definition empty_content_df : DataFrame :=
  [ entry "A" "Movie" ""; entry "B" "Movie" "the and" ].

Definition missing_content_df : DataFrame :=
  [ {| title := "A"; type := "Movie"; content := None; release_year := 2020;
       rating := "PG-13"; duration := "90 min"; listed_in := "Sci-Fi";
       description := "" |};
    entry "C" "Movie" "space robots" ].

(** ** The page: title mode

    The part of the page below the sidebar, as the data it computes; the
    calls that only draw ([st.markdown], [st.image], [st.caption]) are left
    out.  [st.selectbox] hands back one of its options, the first by default,
    and [None] when there is none. *)

(** [df[df['type'] == content_type]['title'].sort_values()] *)
Definition filtered_titles (df : DataFrame) (content_type : string) : list string :=
  sorted (fun t : string => t) String.ltb false
    (map title (filter (fun e => String.eqb (type e) content_type) df)).

(** [st.selectbox(label, options)], the user pointing at option [choice]. *)
Definition selectbox (options : list string) (choice : nat) : option string :=
  match options with
  | [] => None
  | first :: _ => Some (nth choice options first)
  end.

(** [df[df['title'] == selected_title].iloc[0]] *)
Definition select_movie (df : DataFrame) (selected_title : option string)
  : result CatalogEntry :=
  match selected_title with
  | Some t =>
      match filter (fun e => String.eqb (title e) t) df with
      | e :: _ => Ok e
      | [] => Raise IndexError
      end
  | None => Raise IndexError
  end.

(** One recommendation as the page shows it: [cols[i % 3]], the row and its
    poster. *)
Record Card : Type := {
  column : nat;
  row_label : nat;
  row : CatalogEntry;
  poster : option string
}.

Record PageView : Type := {
  movie : CatalogEntry;
  movie_poster : option string;
  cards : list Card
}.

(** [if poster:] chooses between [st.image] and the placeholder. *)
Definition shows_image (poster : option string) : bool :=
  match poster with
  | Some u => negb (String.eqb u "")
  | None => false
  end.

Section Page.
Context {score : Type} (score_ltb : score -> score -> bool).
Variables (TMDB_API_KEY : option string) (network : request -> reply).
Variables (df : DataFrame) (cosine_sim : list (list score)).

(** The loop [for i, (_, row) in enumerate(recs.iterrows())]. *)
Definition render_card (ir : nat * (nat * CatalogEntry)) : result Card :=
  let r := snd (snd ir) in
  p <- run network (fetch_poster TMDB_API_KEY (title r) (type r)) ;;
  Ok {| column := fst ir mod 3; row_label := fst (snd ir); row := r; poster := p |}.

(** The body of [if basis == "Title":] after the select box.  Without a
    selection, [.iloc[0]] on the empty frame raises before anything else. *)
Definition title_mode (selected_title : option string) : result PageView :=
  match selected_title with
  | None => Raise IndexError
  | Some t =>
      m <- select_movie df (Some t) ;;
      p <- run network (fetch_poster TMDB_API_KEY (title m) (type m)) ;;
      recs <- recommend_by_title_default score_ltb df cosine_sim t ;;
      cs <- mapM render_card (enumerate recs) ;;
      Ok {| movie := m; movie_poster := p; cards := cs |}
  end.

(** The page for a content type chosen in the sidebar and an option of the
    select box. *)
Definition page (content_type : string) (choice : nat) : result PageView :=
  title_mode (selectbox (filtered_titles df content_type) choice).
End Page.

(** The row positions whose title is [t], in catalog order. *)
Definition positions (df : DataFrame) (t : string) : list nat :=
  map fst (filter (fun ie : nat * CatalogEntry => String.eqb (title (snd ie)) t)
             (enumerate df)).

(** A catalog with movies only, and one in which "A" is a movie and a show. *)
Definition movies_df : DataFrame :=
  [ entry "B" "Movie" "space adventure aliens";
    entry "A" "Movie" "space adventure robots" ].

Definition mixed_duplicate_df : DataFrame :=
  [ entry "A" "Movie" "space adventure robots";
    entry "B" "TV Show" "space adventure aliens";
    entry "A" "TV Show" "ocean documentary" ].

Definition movies_sim : list (list Z) := [ [1000; 500]; [500; 1000] ]%Z.

(** ** [@st.cache_data(show_spinner=False)] on [fetch_poster]

    The decorator keeps, for the life of the process, the value returned for
    each pair of arguments.  A call with arguments seen before returns the
    stored value without running the function; a call that raises stores
    nothing. *)

Definition poster_cache : Type := list ((string * string) * option string).

Fixpoint cached (cache : poster_cache) (title content_type : string)
  : option (option string) :=
  match cache with
  | [] => None
  | ((t, ty), v) :: rest =>
      if String.eqb t title && String.eqb ty content_type then Some v
      else cached rest title content_type
  end.

(** The decorated [fetch_poster]: the result and the cache after the call. *)
Definition fetch_poster_cached (TMDB_API_KEY : option string)
    (network : request -> reply) (cache : poster_cache)
    (title content_type : string) : result (option string) * poster_cache :=
  match cached cache title content_type with
  | Some v => (Ok v, cache)
  | None =>
      match run network (fetch_poster TMDB_API_KEY title content_type) with
      | Ok v => (Ok v, ((title, content_type), v) :: cache)
      | Raise e => (Raise e, cache)
      end
  end.

(** A network on which every request fails. *)
Definition network_down (_ : request) : reply := Failure.

(** ** The numeric steps on float64

    The matrix above is computed over the real numbers.  The program computes
    in float64; the steps that follow the TF-IDF weights, row normalisation
    and the product of two rows, are repeated here on primitive floats, each
    sum accumulated from left to right as the library's loops do. *)
Module Float64.
Import PrimFloat.

Definition sum_squares (row : list float) : float :=
  fold_left (fun acc x => acc + x * x)%float row 0%float.

Definition normalize_row (row : list float) : list float :=
  let s := sum_squares row in
  if (s =? 0)%float then row else map (fun x => x / sqrt s)%float row.

Definition dot (u v : list float) : float :=
  fold_left (fun acc p => acc + fst p * snd p)%float (combine u v) 0%float.

Definition one : float := 1%float.

(** The float64 next above 1, printed 1.0000000000000002. *)
Definition one_plus_ulp : float := 0x1.0000000000001p+0%float.

(** The float64 value of [ln 2 + 1], printed 1.6931471805599454: the weight
    of a term that occurs once, in one document of three. *)
Definition idf_one_of_three : float := 0x1.b17217f7d1cf8p+0%float.
End Float64.

(** * Properties *)

(** ** The definitions at work *)

Example analyze_drops_stop_words :
  analyze sample_stop_words "The Robots of SPACE, in 3-D!" = ["robots"; "space"]%string.
Proof. reflexivity. Qed.

Example scenario_vocabulary :
  vocabulary 5000 (analyzed sample_stop_words scenario_df) =
  ["adventure"; "aliens"; "robots"; "space"]%string.
Proof. reflexivity. Qed.

Example scenario_indices :
  indices scenario_df = [("A", 0); ("B", 1); ("C", 2)]%string.
Proof. reflexivity. Qed.

(** The scenario of the specification: "C" has the best score but is a TV
    show, so "B" is the only recommendation for "A". *)
Example scenario_recommendation :
  recommend_by_title Z.ltb scenario_df scenario_sim "A" 2 =
  Ok [(1, entry "B" "Movie" "space adventure aliens")].
Proof. reflexivity. Qed.

Example tie_recommendation :
  recommend_by_title Z.ltb tie_df tie_sim "A" 6 =
  Ok [(3, entry "D" "Movie" "space robots");
      (1, entry "B" "Movie" "space aliens");
      (2, entry "C" "Movie" "space pirates")].
Proof. reflexivity. Qed.

Example slice_to_negative : slice_to (-1) [1; 2; 3] = [1; 2].
Proof. reflexivity. Qed.

Example fetch_poster_found :
  run network_with_poster (fetch_poster (Some "secret"%string) "A" "Movie") =
  Ok (Some "https://image.tmdb.org/t/p/w500/abc.jpg"%string).
Proof. reflexivity. Qed.

(** ** Results and list helpers *)

Lemma bind_Ok_inv {A B : Type} (m : result A) (k : A -> result B) (b : B) :
  bind m k = Ok b -> exists a, m = Ok a /\ k a = Ok b.
Proof.
  destruct m as [a|e]; simpl; intros H; [exists a; auto | discriminate].
Qed.

Tactic Notation "bind_inv" hyp(H) "as" ident(a) ident(Ha) :=
  apply bind_Ok_inv in H; destruct H as (a & Ha & H).

Lemma mapM_Ok_Forall2 {A B : Type} (f : A -> result B) l l' :
  mapM f l = Ok l' -> Forall2 (fun x y => f x = Ok y) l l'.
Proof.
  revert l'; induction l as [|x xs IH]; simpl; intros l' H.
  - injection H as <-. constructor.
  - bind_inv H as y Hy. bind_inv H as ys Hys. injection H as <-.
    constructor; auto.
Qed.

Lemma mapM_total {A B : Type} (f : A -> result B) (g : A -> B) l :
  Forall (fun x => f x = Ok (g x)) l -> mapM f l = Ok (map g l).
Proof.
  induction 1 as [|x xs Hx _ IH]; simpl; [reflexivity|].
  rewrite Hx; simpl. rewrite IH; reflexivity.
Qed.

Lemma filterM_Ok_filter {A : Type} (p : A -> result bool) (q : A -> bool) l l' :
  (forall x b, In x l -> p x = Ok b -> b = q x) ->
  filterM p l = Ok l' -> l' = filter q l.
Proof.
  revert l'; induction l as [|x xs IH]; simpl; intros l' Hq H.
  - injection H as <-. reflexivity.
  - bind_inv H as b Hb. bind_inv H as ys Hys. injection H as <-.
    rewrite <- (Hq x b (or_introl eq_refl) Hb).
    rewrite (IH ys); auto.
Qed.

Lemma filterM_total {A : Type} (p : A -> result bool) (q : A -> bool) l :
  Forall (fun x => p x = Ok (q x)) l -> filterM p l = Ok (filter q l).
Proof.
  induction 1 as [|x xs Hx _ IH]; simpl; [reflexivity|].
  rewrite Hx; simpl. rewrite IH; simpl. reflexivity.
Qed.

Lemma enumerate_from_fst {A : Type} (l : list A) k :
  map fst (enumerate_from k l) = seq k (length l).
Proof.
  revert k; induction l as [|x xs IH]; intros k; simpl; [reflexivity|].
  now rewrite IH.
Qed.

Lemma enumerate_from_In {A : Type} (l : list A) k i x :
  In (i, x) (enumerate_from k l) <-> k <= i /\ nth_error l (i - k) = Some x.
Proof.
  revert k; induction l as [|y ys IH]; intros k; simpl.
  - split; [tauto|]. intros [_ H]. destruct (i - k); discriminate.
  - rewrite IH. split.
    + intros [H|[Hk H]].
      * injection H as <- <-. split; [lia|]. now rewrite Nat.sub_diag.
      * split; [lia|]. replace (i - k) with (S (i - S k)) by lia. exact H.
    + intros [Hk H]. destruct (Nat.eq_dec i k) as [->|Hne].
      * rewrite Nat.sub_diag in H. left. simpl in H. congruence.
      * right. split; [lia|].
        replace (i - k) with (S (i - S k)) in H by lia. exact H.
Qed.

Lemma enumerate_In {A : Type} (l : list A) i x :
  In (i, x) (enumerate l) <-> nth_error l i = Some x.
Proof.
  unfold enumerate. rewrite enumerate_from_In, Nat.sub_0_r.
  split; [tauto | split; [lia | assumption]].
Qed.

Lemma slice_to_prefix {A : Type} (n : Z) (l : list A) :
  exists m, slice_to n l = firstn m l.
Proof.
  unfold slice_to. destruct (0 <=? n)%Z; eexists; reflexivity.
Qed.

Lemma slice_to_incl {A : Type} (n : Z) (l : list A) x :
  In x (slice_to n l) -> In x l.
Proof.
  destruct (slice_to_prefix n l) as [m ->].
  intros H. rewrite <- (firstn_skipn m l). apply in_or_app; auto.
Qed.

(** ** Sorting: permutation and stability *)

Section SortedFacts.
Variables (A K : Type) (key : A -> K) (ltb : K -> K -> bool).

Lemma insert_sorted_perm r x l :
  Permutation (insert_sorted key ltb r x l) (x :: l).
Proof.
  induction l as [|y ys IH]; simpl; [reflexivity|].
  destruct (if r then ltb (key x) (key y) else ltb (key y) (key x)).
  - rewrite IH. apply perm_swap.
  - reflexivity.
Qed.

Lemma sorted_perm r l : Permutation (sorted key ltb r l) l.
Proof.
  induction l as [|x xs IH]; simpl; [reflexivity|].
  rewrite insert_sorted_perm. now constructor.
Qed.

(** [may_precede x y]: nothing forbids [x] from standing before [y].  The
    sort keeps every pair of the input that it is not forced to swap. *)
Variable may_precede : A -> A -> Prop.
Hypothesis swapped_only_if_less :
  forall x y, ltb (key x) (key y) = true -> may_precede y x.

Lemma insert_sorted_desc_StronglySorted x l :
  Forall (may_precede x) l ->
  StronglySorted may_precede l ->
  StronglySorted may_precede (insert_sorted key ltb true x l).
Proof.
  intros Hx Hl. induction Hl as [|y ys Hys IH Hy]; simpl.
  - repeat constructor.
  - destruct (ltb (key x) (key y)) eqn:E.
    + constructor.
      * apply IH. now inversion Hx.
      * eapply Permutation_Forall.
        { symmetry. apply insert_sorted_perm. }
        constructor; auto.
    + constructor; [constructor|]; auto.
Qed.

Lemma sorted_desc_StronglySorted l :
  StronglySorted may_precede l ->
  StronglySorted may_precede (sorted key ltb true l).
Proof.
  induction 1 as [|x xs Hxs IH Hx]; simpl; [constructor|].
  apply insert_sorted_desc_StronglySorted; auto.
  eapply Permutation_Forall; [symmetry; apply sorted_perm | exact Hx].
Qed.
End SortedFacts.

(** With [reverse=True] the keys descend, when [<] is a strict weak order. *)
Lemma sorted_desc_descending {A K : Type} (key : A -> K) (ltb : K -> K -> bool) l :
  (forall x y, ltb x y = true -> ltb y x = false) ->
  (forall x y z, ltb x y = false -> ltb y z = false -> ltb x z = false) ->
  StronglySorted (fun a b => ltb (key a) (key b) = false) (sorted key ltb true l).
Proof.
  intros Hasym Htrans. induction l as [|x xs IH]; simpl; [constructor|].
  induction IH as [|y ys Hys IHys Hy]; simpl.
  - repeat constructor.
  - destruct (ltb (key x) (key y)) eqn:E.
    + constructor; [assumption|].
      eapply Permutation_Forall.
      { symmetry. apply insert_sorted_perm. }
      constructor; auto.
    + constructor; [constructor; assumption|].
      constructor; [assumption|].
      revert Hy. apply Forall_impl. intros z Hz. eapply Htrans; eauto.
Qed.

(** ** The title index *)

Lemma drop_duplicates_from_fresh labels : forall seen k n,
  (forall v, In v seen -> v < k) ->
  drop_duplicates_from seen (combine labels (seq k n)) = combine labels (seq k n).
Proof.
  induction labels as [|l ls IH]; intros seen k n Hseen; [reflexivity|].
  destruct n as [|n]; [reflexivity|]. simpl.
  destruct (existsb (Nat.eqb k) seen) eqn:E.
  - apply existsb_exists in E. destruct E as (v & Hv & Hk).
    apply Nat.eqb_eq in Hk. subst v. apply Hseen in Hv. lia.
  - f_equal. apply IH. intros v [<-|Hv]; [lia|]. apply Hseen in Hv. lia.
Qed.

(** [drop_duplicates] removes nothing from the title index: its values are
    the row positions, which are pairwise distinct. *)
Lemma indices_all_rows (df : DataFrame) :
  indices df = combine (df_title df) (df_index df).
Proof.
  unfold indices, drop_duplicates, Series_new, df_index.
  apply drop_duplicates_from_fresh. intros v [].
Qed.

Lemma combine_title_seq_In (df : DataFrame) : forall k l v,
  In (l, v) (combine (map title df) (seq k (length df))) <->
  k <= v /\ exists e, nth_error df (v - k) = Some e /\ title e = l.
Proof.
  induction df as [|e0 df IH]; intros k l v; simpl.
  - split; [tauto|]. intros (_ & e & H & _). destruct (v - k); discriminate.
  - rewrite IH. split.
    + intros [H|(Hk & e & He & Hl)].
      * injection H as <- <-. split; [lia|]. exists e0.
        rewrite Nat.sub_diag. auto.
      * split; [lia|]. exists e. replace (v - k) with (S (v - S k)) by lia. auto.
    + intros (Hk & e & He & Hl). destruct (Nat.eq_dec v k) as [->|Hne].
      * left. rewrite Nat.sub_diag in He. simpl in He. congruence.
      * right. split; [lia|]. exists e.
        replace (v - k) with (S (v - S k)) in He by lia. auto.
Qed.

Lemma indices_In (df : DataFrame) l v :
  In (l, v) (indices df) <-> exists e, nth_error df v = Some e /\ title e = l.
Proof.
  rewrite indices_all_rows. unfold df_title, df_index.
  rewrite combine_title_seq_In, Nat.sub_0_r.
  split; [tauto | split; [lia | assumption]].
Qed.

Lemma indices_values (df : DataFrame) : map snd (indices df) = df_index df.
Proof.
  rewrite indices_all_rows. unfold df_title, df_index.
  generalize 0. induction df as [|e df IH]; intros k; simpl; [reflexivity|].
  now rewrite IH.
Qed.

Lemma NoDup_map_filter {A B : Type} (g : A -> B) (p : A -> bool) l :
  NoDup (map g l) -> NoDup (map g (filter p l)).
Proof.
  induction l as [|x xs IH]; simpl; intros H; [constructor|].
  inversion H as [|? ? Hx Hxs]; subst.
  destruct (p x); simpl; auto.
  constructor; auto. intros Hin. apply Hx.
  apply in_map_iff in Hin. destruct Hin as (y & Hy & Hin).
  apply filter_In in Hin. apply in_map_iff. exists y. tauto.
Qed.

Lemma labelled_In df t l v :
  In (l, v) (labelled df t) <->
  l = t /\ exists e, nth_error df v = Some e /\ title e = t.
Proof.
  unfold labelled. rewrite filter_In, indices_In. simpl.
  rewrite String.eqb_eq. split.
  - intros ((e & He & Hl) & ->). eauto.
  - intros (-> & e & He & Hl). eauto.
Qed.

Lemma labelled_NoDup df t : NoDup (map snd (labelled df t)).
Proof.
  apply NoDup_map_filter. rewrite indices_values. apply seq_NoDup.
Qed.

(** A title that labels exactly one row resolves to that row. *)
Lemma getitem_Scalar_iff df t idx :
  Series_getitem (indices df) t = Ok (Scalar idx) <->
  (exists e, nth_error df idx = Some e /\ title e = t) /\
  (forall j e', nth_error df j = Some e' -> title e' = t -> j = idx).
Proof.
  unfold Series_getitem. fold (labelled df t).
  pose proof (labelled_In df t) as HIn.
  pose proof (labelled_NoDup df t) as HND.
  destruct (labelled df t) as [|[l v] [|[l2 v2] rest]]; split.
  - discriminate.
  - intros ((e & He & Ht) & _).
    destruct (proj2 (HIn t idx)) as []. eauto.
  - intros H. injection H as ->. split.
    + apply (HIn l idx). left; reflexivity.
    + intros j e' Hj Ht.
      destruct (proj2 (HIn t j)) as [H|[]]; eauto. congruence.
  - intros ((e & He & Ht) & _).
    destruct (proj2 (HIn t idx)) as [H|[]]; eauto. congruence.
  - discriminate.
  - intros (_ & Huniq). exfalso.
    assert (v = idx).
    { destruct (proj1 (HIn l v)) as (_ & e & He & Ht); [left; reflexivity|]. eauto. }
    assert (v2 = idx).
    { destruct (proj1 (HIn l2 v2)) as (_ & e & He & Ht); [right; left; reflexivity|]. eauto. }
    subst. simpl in HND. inversion HND as [|? ? Hn _]. apply Hn. left; reflexivity.
Qed.

(** A title that labels no row is a [KeyError]. *)
Lemma getitem_absent df t :
  ~ In t (df_title df) -> Series_getitem (indices df) t = Raise (KeyError (LStr t)).
Proof.
  intros Habs. unfold Series_getitem. fold (labelled df t).
  pose proof (labelled_In df t) as HIn.
  destruct (labelled df t) as [|[l v] rest]; [reflexivity|].
  exfalso. apply Habs.
  destruct (proj1 (HIn l v)) as (_ & e & He & Ht); [left; reflexivity|].
  unfold df_title. rewrite <- Ht. apply in_map. eapply nth_error_In; eauto.
Qed.

(** A title that labels two rows selects a sub-series holding both. *)
Lemma getitem_duplicated df t i j ei ej :
  nth_error df i = Some ei -> title ei = t ->
  nth_error df j = Some ej -> title ej = t ->
  i <> j ->
  exists vs, Series_getitem (indices df) t = Ok (SubSeries vs) /\ In i vs /\ In j vs.
Proof.
  intros Hi Hti Hj Htj Hne. unfold Series_getitem. fold (labelled df t).
  assert (Ii : In i (map snd (labelled df t))).
  { apply in_map_iff. exists (t, i). split; [reflexivity|]. apply labelled_In. eauto. }
  assert (Ij : In j (map snd (labelled df t))).
  { apply in_map_iff. exists (t, j). split; [reflexivity|]. apply labelled_In. eauto. }
  destruct (labelled df t) as [|[l v] [|[l2 v2] rest]].
  - destruct Ii.
  - simpl in Ii, Ij. exfalso. intuition congruence.
  - eexists. split; [reflexivity|]. auto.
Qed.

(** ** The recommendation engine *)

Lemma Forall2_map_fst_l {A B C : Type} (P : A -> C -> Prop) (l : list (A * B)) l' :
  Forall2 P (map fst l) l' -> Forall2 (fun i r => P (fst i) r) l l'.
Proof.
  revert l'; induction l as [|x xs IH]; simpl; intros l' H; inversion H; subst;
    constructor; auto.
Qed.

Section EngineFacts.
Context {score : Type} (score_ltb : score -> score -> bool).

(** [sim_scores] after the sort. *)
Local Abbreviation ranking row :=
  (sorted (@snd nat score) score_ltb true (enumerate row)).

(** [filtered] *)
Local Abbreviation filtered_of df ty idx row :=
  (filter (fun i : nat * score => is_candidate df ty idx (fst i)) (ranking row)).

Lemma keep_is_candidate df ty idx (i : nat * score) b :
  keep df ty idx i = Ok b -> b = is_candidate df ty idx (fst i).
Proof.
  unfold keep, iloc, is_candidate.
  destruct (nth_error df (fst i)); simpl; [|discriminate]. congruence.
Qed.

Lemma keep_total df ty idx (i : nat * score) :
  fst i < length df -> keep df ty idx i = Ok (is_candidate df ty idx (fst i)).
Proof.
  intros H. unfold keep, iloc, is_candidate.
  destruct (nth_error df (fst i)) eqn:E; [reflexivity|].
  apply nth_error_None in E. lia.
Qed.

Lemma ranking_In row i s :
  In (i, s) (ranking row) <-> nth_error row i = Some s.
Proof.
  rewrite <- enumerate_In. split; apply Permutation_in;
    [|symmetry]; apply sorted_perm.
Qed.

(** What a successful call has computed. *)
Lemma recommend_by_title_Ok df sim t n rows :
  recommend_by_title score_ltb df sim t n = Ok rows ->
  exists idx e row,
    Series_getitem (indices df) t = Ok (Scalar idx) /\
    nth_error df idx = Some e /\
    nth_error sim idx = Some row /\
    Forall2 (fun (i : nat * score) r => fst r = fst i /\ nth_error df (fst i) = Some (snd r))
      (slice_to n (filtered_of df (type e) idx row)) rows.
Proof.
  unfold recommend_by_title. intros H. bind_inv H as sel Hsel.
  destruct sel as [idx|idxs].
  2:{ bind_inv H as tys Htys. bind_inv H as rs Hrs. discriminate. }
  bind_inv H as ty Hty. bind_inv H as row Hrow. bind_inv H as filtered Hf.
  unfold loc_type in Hty. destruct (nth_error df idx) as [e|] eqn:He; [|discriminate].
  injection Hty as <-.
  unfold matrix_row in Hrow. destruct (nth_error sim idx) as [row'|] eqn:Hrow'; [|discriminate].
  injection Hrow as <-.
  exists idx, e, row'. repeat split; auto.
  apply (filterM_Ok_filter _ (fun i => is_candidate df (type e) idx (fst i))) in Hf.
  2:{ intros x b _. apply keep_is_candidate. }
  subst filtered. unfold iloc_list in H. apply mapM_Ok_Forall2 in H.
  apply Forall2_map_fst_l in H.
  eapply Forall2_impl; [|exact H]. simpl. intros i r Hr.
  bind_inv Hr as e' He'. injection Hr as <-. simpl. split; [reflexivity|].
  unfold iloc in He'. destruct (nth_error df (fst i)); congruence.
Qed.

(** A title that labels exactly one row is answered: the call returns the
    first [n] candidates of the ranking, each with its row. *)
Lemma recommend_by_title_unique df sim t n idx e row :
  nth_error df idx = Some e -> title e = t ->
  (forall j e', nth_error df j = Some e' -> title e' = t -> j = idx) ->
  nth_error sim idx = Some row -> length row <= length df ->
  recommend_by_title score_ltb df sim t n =
  Ok (map (fun i : nat * score => (fst i, nth (fst i) df e))
        (slice_to n (filtered_of df (type e) idx row))).
Proof.
  intros He Ht Huniq Hrow Hlen. unfold recommend_by_title.
  rewrite (proj2 (getitem_Scalar_iff df t idx)) by eauto. simpl.
  unfold loc_type. rewrite He. simpl.
  unfold matrix_row. rewrite Hrow. simpl.
  assert (Hbound : forall i : nat * score, In i (ranking row) -> fst i < length df).
  { intros [i s] Hi. apply ranking_In in Hi. simpl.
    assert (i < length row) by (apply nth_error_Some; congruence). lia. }
  rewrite (filterM_total _ (fun i => is_candidate df (type e) idx (fst i))).
  2:{ apply Forall_forall. intros i Hi. apply keep_total. auto. }
  simpl. unfold iloc_list.
  rewrite (mapM_total _ (fun k => (k, nth k df e))).
  - now rewrite map_map.
  - apply Forall_forall. intros k Hk. apply in_map_iff in Hk.
    destruct Hk as (i & <- & Hi). apply slice_to_incl, filter_In in Hi.
    destruct Hi as [Hi _]. apply Hbound in Hi. unfold iloc.
    rewrite (nth_error_nth' df e Hi). reflexivity.
Qed.
End EngineFacts.

Lemma Permutation_filter {A : Type} (p : A -> bool) l l' :
  Permutation l l' -> Permutation (filter p l) (filter p l').
Proof.
  induction 1 as [|x l l' _ IH|x y l|l l' l'' _ IH1 _ IH2]; simpl.
  - constructor.
  - destruct (p x); auto.
  - destruct (p x), (p y); auto. apply perm_swap.
  - etransitivity; eauto.
Qed.

Lemma filter_map_fst {A B : Type} (p : A -> bool) (l : list (A * B)) :
  map fst (filter (fun i => p (fst i)) l) = filter p (map fst l).
Proof.
  induction l as [|x xs IH]; simpl; [reflexivity|].
  destruct (p (fst x)); simpl; now rewrite IH.
Qed.

Lemma StronglySorted_filter {A : Type} (R : A -> A -> Prop) (p : A -> bool) l :
  StronglySorted R l -> StronglySorted R (filter p l).
Proof.
  induction 1 as [|x xs _ IH Hx]; simpl; [constructor|].
  destruct (p x); auto. constructor; auto.
  apply Forall_forall. intros y Hy. apply filter_In in Hy.
  rewrite Forall_forall in Hx. apply Hx. tauto.
Qed.

Lemma StronglySorted_app {A : Type} (R : A -> A -> Prop) l1 l2 :
  StronglySorted R (l1 ++ l2) ->
  StronglySorted R l1 /\ StronglySorted R l2 /\
  forall x y, In x l1 -> In y l2 -> R x y.
Proof.
  induction l1 as [|a l1 IH]; simpl; intros H.
  - repeat split; [constructor | assumption | intros x y []].
  - apply StronglySorted_inv in H. destruct H as [H Ha].
    destruct (IH H) as (H1 & H2 & H12). rewrite Forall_forall in Ha.
    repeat split; auto.
    + constructor; auto. apply Forall_forall. intros y Hy. apply Ha.
      apply in_or_app; auto.
    + intros x y [<-|Hx] Hy; auto. apply Ha. apply in_or_app; auto.
Qed.

(** In a list sorted for [R], an element that [R] does not let behind
    another stands before it. *)
Lemma StronglySorted_ranked_before {A : Type} (R : A -> A -> Prop) l a b :
  StronglySorted R l -> In a l -> In b l -> a <> b -> ~ R b a ->
  ranked_before a b l.
Proof.
  intros HS Ha Hb Hne HR.
  destruct (in_split _ _ Ha) as (l1 & l2 & ->).
  apply StronglySorted_app in HS. destruct HS as (_ & HS2 & H12).
  apply in_app_or in Hb. destruct Hb as [Hb|[Hb|Hb]].
  - exfalso. apply HR. apply H12; [assumption | left; reflexivity].
  - congruence.
  - destruct (in_split _ _ Hb) as (l3 & l4 & ->). exists l1, l3, l4. reflexivity.
Qed.

Lemma ranked_before_map {A B : Type} (f : A -> B) a b l :
  ranked_before a b l -> ranked_before (f a) (f b) (map f l).
Proof.
  intros (l1 & l2 & l3 & ->). exists (map f l1), (map f l2), (map f l3).
  now rewrite map_app, (map_cons f a), map_app.
Qed.

Lemma enumerate_from_StronglySorted {A : Type} (l : list A) k :
  StronglySorted (fun x y : nat * A => fst x < fst y) (enumerate_from k l).
Proof.
  revert k; induction l as [|x xs IH]; intros k; simpl; constructor; auto.
  apply Forall_forall. intros [i y] Hi. apply enumerate_from_In in Hi. simpl. lia.
Qed.

Lemma StronglySorted_weaken {A : Type} (R R' : A -> A -> Prop) l :
  (forall x y, R x y -> R' x y) -> StronglySorted R l -> StronglySorted R' l.
Proof.
  intros HR. induction 1 as [|x xs _ IH Hx]; constructor; auto.
  revert Hx. apply Forall_impl. auto.
Qed.

Section EngineRanking.
Context {score : Type} (score_ltb : score -> score -> bool).

Local Abbreviation ranking row :=
  (sorted (@snd nat score) score_ltb true (enumerate row)).
Local Abbreviation filtered_of df ty idx row :=
  (filter (fun i : nat * score => is_candidate df ty idx (fst i)) (ranking row)).

(** A successful call returns the rows of a prefix of [filtered]. *)
Lemma recommend_by_title_Ok_rows df sim t n rows :
  recommend_by_title score_ltb df sim t n = Ok rows ->
  exists idx e row,
    Series_getitem (indices df) t = Ok (Scalar idx) /\
    nth_error df idx = Some e /\
    nth_error sim idx = Some row /\
    rows = map (fun i : nat * score => (fst i, nth (fst i) df e))
             (slice_to n (filtered_of df (type e) idx row)) /\
    Forall (fun r => nth_error df (fst r) = Some (snd r) /\
                     is_candidate df (type e) idx (fst r) = true) rows.
Proof.
  intros H. destruct (recommend_by_title_Ok _ _ _ _ _ H)
    as (idx & e & row & Hsel & He & Hrow & HF).
  exists idx, e, row. repeat split; auto.
  - clear H. revert HF. generalize (slice_to n (filtered_of df (type e) idx row)).
    intros l HF. induction HF as [|i r l rs [Hi Hr] _ IH]; simpl; [reflexivity|].
    rewrite <- IH. f_equal. destruct r as [k e']. simpl in *. subst k.
    f_equal. symmetry. apply nth_error_nth. assumption.
  - clear H. assert (Hc : Forall (fun i : nat * score =>
               is_candidate df (type e) idx (fst i) = true)
              (slice_to n (filtered_of df (type e) idx row))).
    { apply Forall_forall. intros i Hi. apply slice_to_incl, filter_In in Hi. tauto. }
    revert HF Hc. generalize (slice_to n (filtered_of df (type e) idx row)).
    intros l HF. induction HF as [|i r l rs [Hi Hr] _ IH]; intros Hc;
      constructor; inversion Hc; subst; auto.
    rewrite Hi. auto.
Qed.

Lemma filtered_indices df ty idx row :
  length row = length df ->
  Permutation (map fst (filtered_of df ty idx row)) (candidates df ty idx).
Proof.
  intros Hlen. rewrite filter_map_fst. unfold candidates, df_index.
  apply Permutation_filter. rewrite <- Hlen.
  rewrite <- (enumerate_from_fst row 0). apply Permutation_map, sorted_perm.
Qed.

(** Rows of equal score keep the order of the catalog in [filtered]. *)
Lemma filtered_stable df ty idx row :
  (forall s, score_ltb s s = false) ->
  StronglySorted (fun x y : nat * score => snd x = snd y -> fst x < fst y)
    (filtered_of df ty idx row).
Proof.
  intros Hirr. apply StronglySorted_filter, sorted_desc_StronglySorted.
  - intros x y Hlt Heq. rewrite Heq, Hirr in Hlt. discriminate.
  - eapply StronglySorted_weaken; [|apply enumerate_from_StronglySorted].
    auto.
Qed.
End EngineRanking.

(** ** Claims about the title index and the engine *)

(** C1 (defect in the code).  The title index is meant to keep one row
    position per title, the first in source order.  [drop_duplicates]
    compares the values of the series, which are the row positions and never
    repeat, so no entry is dropped: in [duplicate_df] the title "A" selects
    the sub-series of both of its rows, 0 and 2, instead of row 0, and
    [recommend_by_title] raises [ValueError] on it. *)
Theorem indices_duplicate_title_keeps_every_row :
  indices duplicate_df = [("A", 0); ("B", 1); ("A", 2)]%string /\
  Series_getitem (indices duplicate_df) "A" = Ok (SubSeries [0; 2]) /\
  recommend_by_title Z.ltb duplicate_df duplicate_sim "A" 6 =
    Raise (ValueError ambiguous_truth_value).
Proof.
  repeat split; reflexivity.
Qed.

(** C4.  A title that labels no row of the catalog makes
    [recommend_by_title] raise [KeyError] for that title, whatever [n] is: the
    caller gets an exception, never an empty result. *)
Theorem recommend_by_title_unknown_title
    {score : Type} (score_ltb : score -> score -> bool)
    (df : DataFrame) (cosine_sim : list (list score)) (t : string) (n : Z) :
  ~ In t (df_title df) ->
  recommend_by_title score_ltb df cosine_sim t n = Raise (KeyError (LStr t)).
Proof.
  intros Habs. unfold recommend_by_title.
  rewrite (getitem_absent df t Habs). reflexivity.
Qed.

Lemma recommend_by_title_unknown_title_witness :
  ~ In "does-not-exist"%string (df_title scenario_df) /\
  recommend_by_title Z.ltb scenario_df scenario_sim "does-not-exist" 6 =
    Raise (KeyError (LStr "does-not-exist")).
Proof.
  assert (H : ~ In "does-not-exist"%string (df_title scenario_df)).
  { simpl. intros [H|[H|[H|[]]]]; discriminate. }
  split; [exact H|].
  apply (recommend_by_title_unknown_title Z.ltb scenario_df scenario_sim
           "does-not-exist" 6 H).
Defined.

(** C5.  Every row returned by [recommend_by_title(title, n)] is a row of
    the catalog whose [type] equals the [type] of the row the title resolves
    to. *)
Theorem recommend_by_title_type_purity
    {score : Type} (score_ltb : score -> score -> bool)
    (df : DataFrame) (cosine_sim : list (list score)) (t : string) (n : Z)
    (rows : list (nat * CatalogEntry)) :
  recommend_by_title score_ltb df cosine_sim t n = Ok rows ->
  exists idx e,
    Series_getitem (indices df) t = Ok (Scalar idx) /\
    nth_error df idx = Some e /\ title e = t /\
    Forall (fun r => nth_error df (fst r) = Some (snd r) /\
                     type (snd r) = type e) rows.
Proof.
  intros H. destruct (recommend_by_title_Ok_rows _ _ _ _ _ H)
    as (idx & e & row & Hsel & He & _ & _ & HF).
  exists idx, e. repeat split; auto.
  - apply getitem_Scalar_iff in Hsel. destruct Hsel as ((e' & He' & Ht) & _).
    congruence.
  - revert HF. apply Forall_impl. intros [k e'] [Hk Hc]. simpl in *.
    split; [assumption|]. unfold is_candidate in Hc. rewrite Hk in Hc.
    apply andb_prop in Hc. destruct Hc as [Hc _]. now apply String.eqb_eq.
Qed.

Lemma recommend_by_title_type_purity_witness :
  exists idx e,
    Series_getitem (indices scenario_df) "A" = Ok (Scalar idx) /\
    nth_error scenario_df idx = Some e /\ title e = "A"%string /\
    Forall (fun r => nth_error scenario_df (fst r) = Some (snd r) /\
                     type (snd r) = type e)
      [(1, entry "B" "Movie" "space adventure aliens")].
Proof.
  apply (recommend_by_title_type_purity Z.ltb scenario_df scenario_sim "A" 2).
  reflexivity.
Defined.

(** C6.  No row returned by [recommend_by_title(title, n)] carries the
    queried title, and none is the row the title resolves to. *)
Theorem recommend_by_title_no_self_inclusion
    {score : Type} (score_ltb : score -> score -> bool)
    (df : DataFrame) (cosine_sim : list (list score)) (t : string) (n : Z)
    (rows : list (nat * CatalogEntry)) :
  recommend_by_title score_ltb df cosine_sim t n = Ok rows ->
  exists idx,
    Series_getitem (indices df) t = Ok (Scalar idx) /\
    Forall (fun r => fst r <> idx /\ title (snd r) <> t) rows.
Proof.
  intros H. destruct (recommend_by_title_Ok_rows _ _ _ _ _ H)
    as (idx & e & row & Hsel & He & _ & _ & HF).
  exists idx. split; [assumption|].
  apply getitem_Scalar_iff in Hsel. destruct Hsel as (_ & Huniq).
  revert HF. apply Forall_impl. intros [k e'] [Hk Hc]. simpl in *.
  assert (Hne : k <> idx).
  { unfold is_candidate in Hc. rewrite Hk in Hc.
    apply andb_prop in Hc. destruct Hc as [_ Hc].
    apply negb_true_iff, Nat.eqb_neq in Hc. assumption. }
  split; [assumption|]. intros Ht. apply Hne. eapply Huniq; eauto.
Qed.

Lemma recommend_by_title_no_self_inclusion_witness :
  exists idx,
    Series_getitem (indices tie_df) "A" = Ok (Scalar idx) /\
    Forall (fun r => fst r <> idx /\ title (snd r) <> "A"%string)
      [(3, entry "D" "Movie" "space robots");
       (1, entry "B" "Movie" "space aliens");
       (2, entry "C" "Movie" "space pirates")].
Proof.
  apply (recommend_by_title_no_self_inclusion Z.ltb tie_df tie_sim "A" 6).
  reflexivity.
Defined.

(** C3.  Let the title resolve to row [idx], and let rows [i < j] be two
    candidates with the same score in [cosine_sim[idx]].  Whenever [j] is
    returned, [i] is returned too and stands before it: equal scores are
    ranked in ascending row order. *)
Theorem recommend_by_title_tie_break
    {score : Type} (score_ltb : score -> score -> bool)
    (df : DataFrame) (cosine_sim : list (list score)) (t : string) (n : Z)
    (rows : list (nat * CatalogEntry))
    (idx : nat) (e : CatalogEntry) (row : list score)
    (i j : nat) (ei ej : CatalogEntry) (s : score) :
  (forall x, score_ltb x x = false) ->
  recommend_by_title score_ltb df cosine_sim t n = Ok rows ->
  Series_getitem (indices df) t = Ok (Scalar idx) ->
  nth_error df idx = Some e ->
  nth_error cosine_sim idx = Some row ->
  i < j ->
  nth_error row i = Some s -> nth_error row j = Some s ->
  nth_error df i = Some ei -> type ei = type e -> i <> idx ->
  In (j, ej) rows ->
  ranked_before (i, ei) (j, ej) rows.
Proof.
  intros Hirr H Hsel He Hrow Hij Hsi Hsj Hei Hty Hne Hj.
  destruct (recommend_by_title_Ok_rows _ _ _ _ _ H)
    as (idx' & e' & row' & Hsel' & He' & Hrow' & Hrows & _).
  assert (idx' = idx) by congruence. subst idx'.
  assert (e' = e) by congruence. subst e'.
  assert (row' = row) by congruence. subst row'. clear Hsel' He' Hrow'.
  set (F := filter (fun i0 : nat * score => is_candidate df (type e) idx (fst i0))
              (sorted (@snd nat score) score_ltb true (enumerate row))) in *.
  pose proof (filtered_stable score_ltb df (type e) idx row Hirr) as HS.
  fold F in HS.
  destruct (slice_to_prefix n F) as [m Hm]. rewrite Hm in Hrows.
  rewrite <- (firstn_skipn m F) in HS.
  apply StronglySorted_app in HS. destruct HS as (HSP & _ & Hcross).
  (* the returned row [j] comes from the pair [(j, s)] of the prefix *)
  subst rows. apply in_map_iff in Hj. destruct Hj as ([j' sj] & Hjeq & HjP).
  simpl in Hjeq. injection Hjeq as -> Hej.
  assert (HjF : In (j, sj) F).
  { rewrite <- (firstn_skipn m F). apply in_or_app; auto. }
  assert (sj = s).
  { apply filter_In in HjF. destruct HjF as [HjF _].
    apply ranking_In in HjF. congruence. }
  subst sj.
  (* the candidate [i] is in [filtered], and not behind the prefix *)
  assert (HiF : In (i, s) F).
  { apply filter_In. split; [now apply ranking_In|]. simpl.
    unfold is_candidate. rewrite Hei, Hty, String.eqb_refl. simpl.
    apply negb_true_iff, Nat.eqb_neq. assumption. }
  assert (HiP : In (i, s) (firstn m F)).
  { rewrite <- (firstn_skipn m F) in HiF. apply in_app_or in HiF.
    destruct HiF as [|HiS]; [assumption|]. exfalso.
    specialize (Hcross _ _ HjP HiS eq_refl). simpl in Hcross. lia. }
  assert (HB : ranked_before (i, s) (j, s) (firstn m F)).
  { eapply StronglySorted_ranked_before; eauto.
    - intros Heq. injection Heq as Heq. lia.
    - simpl. intros Hlt. specialize (Hlt eq_refl). lia. }
  apply (ranked_before_map (fun i0 : nat * score => (fst i0, nth (fst i0) df e))) in HB.
  simpl in HB. rewrite (nth_error_nth _ _ e Hei) in HB. rewrite Hej in HB. exact HB.
Qed.

Lemma recommend_by_title_tie_break_witness :
  ranked_before (1, entry "B" "Movie" "space aliens")
                (2, entry "C" "Movie" "space pirates")
    [(3, entry "D" "Movie" "space robots");
     (1, entry "B" "Movie" "space aliens");
     (2, entry "C" "Movie" "space pirates")].
Proof.
  apply (@recommend_by_title_tie_break Z Z.ltb tie_df tie_sim "A" 6
           [(3, entry "D" "Movie" "space robots");
            (1, entry "B" "Movie" "space aliens");
            (2, entry "C" "Movie" "space pirates")]
           0 (entry "A" "Movie" "space robots")
           [1000; 300; 300; 1000]%Z 1 2
           (entry "B" "Movie" "space aliens") (entry "C" "Movie" "space pirates")
           300%Z).
  - intros x. apply Z.ltb_irrefl.
  - reflexivity.
  - reflexivity.
  - reflexivity.
  - reflexivity.
  - lia.
  - reflexivity.
  - reflexivity.
  - reflexivity.
  - reflexivity.
  - discriminate.
  - simpl. auto.
Defined.

(** C7 (defect in the code).  The call is meant to return at most [n] rows,
    and all the candidates when there are fewer than [n].  In [duplicate_df]
    the title "A" labels rows 0 and 2; the first of them has two candidates
    of its type, yet for every [n] the call raises [ValueError] instead of
    returning them: the title index hands back both positions (the defect of
    C1) and [sorted] then compares two rows of the matrix. *)
Theorem recommend_by_title_fails_on_duplicated_title :
  candidates duplicate_df "Movie" 0 = [1; 2] /\
  forall n : Z,
    recommend_by_title Z.ltb duplicate_df duplicate_sim "A" n =
    Raise (ValueError ambiguous_truth_value).
Proof.
  split; [reflexivity|]. intros n. reflexivity.
Qed.

(** X23.  For a title that labels exactly one row, a similarity row as long
    as the catalog and [n >= 0], [recommend_by_title(title, n)] returns the
    smaller of [n] and the number of candidates (rows of the same type other
    than the input row): at most [n] rows, and every candidate when there are
    no more than [n] of them. *)
Theorem recommend_by_title_bounded_length
    {score : Type} (score_ltb : score -> score -> bool)
    (df : DataFrame) (cosine_sim : list (list score)) (t : string) (n : Z)
    (idx : nat) (e : CatalogEntry) (row : list score) :
  nth_error df idx = Some e -> title e = t ->
  (forall j e', nth_error df j = Some e' -> title e' = t -> j = idx) ->
  nth_error cosine_sim idx = Some row -> length row = length df ->
  (0 <= n)%Z ->
  exists rows,
    recommend_by_title score_ltb df cosine_sim t n = Ok rows /\
    (Z.of_nat (length rows) <= n)%Z /\
    length rows = Nat.min (Z.to_nat n) (length (candidates df (type e) idx)) /\
    (length (candidates df (type e) idx) <= Z.to_nat n ->
     Permutation (map fst rows) (candidates df (type e) idx)).
Proof.
  intros He Ht Huniq Hrow Hlen Hn.
  eexists. split.
  { apply (@recommend_by_title_unique score score_ltb df cosine_sim t n idx e row
             He Ht Huniq Hrow).
    rewrite Hlen. apply le_n. }
  pose proof (filtered_indices score_ltb df (type e) idx row Hlen) as HP.
  set (F := filter (fun i0 : nat * score => is_candidate df (type e) idx (fst i0))
              (sorted (@snd nat score) score_ltb true (enumerate row))) in *.
  assert (HlenF : length F = length (candidates df (type e) idx)).
  { rewrite <- (Permutation_length HP). now rewrite length_map. }
  unfold slice_to. destruct (Z.leb_spec 0 n) as [_|]; [|lia].
  rewrite length_map, length_firstn, HlenF.
  repeat split.
  - lia.
  - intros Hall. rewrite firstn_all2 by lia.
    rewrite map_map. simpl. exact HP.
Qed.

Lemma recommend_by_title_bounded_length_witness :
  exists rows,
    recommend_by_title Z.ltb scenario_df scenario_sim "A" 2 = Ok rows /\
    (Z.of_nat (length rows) <= 2)%Z /\
    length rows = Nat.min (Z.to_nat 2)
      (length (candidates scenario_df (type (entry "A" "Movie" "space adventure robots")) 0)) /\
    (length (candidates scenario_df (type (entry "A" "Movie" "space adventure robots")) 0)
       <= Z.to_nat 2 ->
     Permutation (map fst rows)
       (candidates scenario_df (type (entry "A" "Movie" "space adventure robots")) 0)).
Proof.
  apply (@recommend_by_title_bounded_length Z Z.ltb scenario_df scenario_sim "A" 2
           0 (entry "A" "Movie" "space adventure robots") [1000; 500; 1000]%Z).
  - reflexivity.
  - reflexivity.
  - intros j e' Hj Ht.
    destruct j as [|[|[|j]]]; simpl in Hj; [reflexivity | | |].
    + injection Hj as <-. discriminate.
    + injection Hj as <-. discriminate.
    + destruct j; discriminate.
  - reflexivity.
  - reflexivity.
  - lia.
Defined.

(** ** The poster lookup *)

Lemma search_url_not_movie content_type :
  content_type <> "Movie"%string -> search_url content_type = tv_endpoint.
Proof.
  intros H. unfold search_url.
  destruct (String.eqb_spec content_type "Movie"); [contradiction | reflexivity].
Qed.

Lemma fetch_poster_with_key key title content_type :
  key <> ""%string ->
  fetch_poster (Some key) title content_type =
  Get (poster_request key title content_type)
      (fun r => except_RequestException (read_poster r)).
Proof.
  intros H. unfold fetch_poster, key_set.
  destruct (String.eqb_spec key ""); [contradiction | reflexivity].
Qed.

Lemma fetch_poster_without_key TMDB_API_KEY title content_type :
  key_set TMDB_API_KEY = false ->
  fetch_poster TMDB_API_KEY title content_type = Return (Ok None).
Proof.
  intros H. unfold fetch_poster. destruct TMDB_API_KEY as [k|]; [|reflexivity].
  now rewrite H.
Qed.

Lemma poster_path_shaped_returns p :
  poster_path_shaped p = true ->
  exists r,
    (if truthy p then u <- poster_url p ;; Ok (Some u) else Ok None) = Ok r.
Proof.
  destruct p as [|b|z|s|items|members]; simpl; intros H;
    try (apply negb_true_iff in H; rewrite H); eauto.
  destruct (negb (s =? "")%string); eauto.
Qed.

(** On a body of the expected shape the [try] block returns. *)
Lemma read_poster_shaped data :
  tmdb_shaped data = true ->
  exists r, read_poster (Response 200 (Some data)) = Ok r.
Proof.
  unfold tmdb_shaped, read_poster. simpl.
  destruct data as [| | | | |members]; try discriminate. simpl.
  destruct (truthy (dict_get members "results")) eqn:Hres; [|eauto].
  destruct (dict_get members "results") as [| | | |items|]; try discriminate.
  destruct items as [|first rest]; try discriminate.
  destruct first as [| | | | |fm]; try discriminate. simpl.
  apply poster_path_shaped_returns.
Qed.





(** C10.  The endpoint is chosen by comparing [content_type] with the string
    "Movie": that value, and no other, selects the movie search endpoint,
    which is not the TV one.  For every other [content_type], recognised or
    not, [fetch_poster] is the TV lookup: it behaves exactly as it does for
    "TV Show", and with an API key set its request goes to the TV search
    endpoint; the value is never validated and no error is raised for it. *)
Theorem fetch_poster_dispatches_on_Movie
    (TMDB_API_KEY : option string) (title content_type : string) :
  content_type <> "Movie"%string ->
  (search_url "Movie" = movie_endpoint /\ movie_endpoint <> tv_endpoint /\
   (forall key, key <> ""%string ->
      fetch_poster (Some key) title "Movie" =
        Get {| url := movie_endpoint;
               params := [("api_key", key); ("query", title)]%string;
               timeout := 5 |}
            (fun r => except_RequestException (read_poster r)))) /\
  search_url content_type = tv_endpoint /\
  fetch_poster TMDB_API_KEY title content_type =
    fetch_poster TMDB_API_KEY title "TV Show" /\
  (key_set TMDB_API_KEY = true ->
   exists key,
     TMDB_API_KEY = Some key /\
     fetch_poster TMDB_API_KEY title content_type =
       Get {| url := tv_endpoint;
              params := [("api_key", key); ("query", title)]%string;
              timeout := 5 |}
           (fun r => except_RequestException (read_poster r))).
Proof.
  intros Hne. pose proof (search_url_not_movie Hne) as Hurl.
  split; [|split; [assumption|split]].
  - split; [reflexivity|]. split; [discriminate|].
    intros key Hkey. now rewrite fetch_poster_with_key.
  - unfold fetch_poster, poster_request. rewrite Hurl. reflexivity.
  - intros Hkey. destruct TMDB_API_KEY as [key|]; [|discriminate].
    exists key. split; [reflexivity|].
    unfold fetch_poster, poster_request. rewrite Hkey, Hurl. reflexivity.
Qed.

Lemma fetch_poster_dispatches_on_Movie_witness :
  (search_url "Movie" = movie_endpoint /\ movie_endpoint <> tv_endpoint /\
   (forall key, key <> ""%string ->
      fetch_poster (Some key) "A" "Movie" =
        Get {| url := movie_endpoint;
               params := [("api_key", key); ("query", "A")]%string;
               timeout := 5 |}
            (fun r => except_RequestException (read_poster r)))) /\
  search_url "movie" = tv_endpoint /\
  fetch_poster (Some "secret"%string) "A" "movie" =
    fetch_poster (Some "secret"%string) "A" "TV Show" /\
  (key_set (Some "secret"%string) = true ->
   exists key,
     Some "secret"%string = Some key /\
     fetch_poster (Some "secret"%string) "A" "movie" =
       Get {| url := tv_endpoint;
              params := [("api_key", key); ("query", "A")]%string;
              timeout := 5 |}
           (fun r => except_RequestException (read_poster r))).
Proof.
  apply (fetch_poster_dispatches_on_Movie (Some "secret"%string) "A").
  discriminate.
Defined.

(** ** Real-number facts about rows *)

Local Open Scope R_scope.

Lemma divide_Ok x y : y <> 0 -> divide x y = Ok (x / y).
Proof.
  intros H. unfold divide. destruct (Req_dec_T y 0); [contradiction | reflexivity].
Qed.

Lemma sum_squares_nonneg row : 0 <= sum_squares row.
Proof.
  unfold sum_squares. induction row as [|x xs IH]; simpl; [lra|].
  pose proof (Rle_0_sqr x) as Hx. unfold Rsqr in Hx. lra.
Qed.

Lemma sum_squares_zero row :
  sum_squares row = 0 <-> Forall (fun x => x = 0) row.
Proof.
  induction row as [|x xs IH].
  - split; [constructor | reflexivity].
  - change (sum_squares (x :: xs)) with (x * x + sum_squares xs).
    pose proof (sum_squares_nonneg xs) as Hxs.
    pose proof (Rle_0_sqr x) as Hx. unfold Rsqr in Hx. split.
    + intros H. constructor.
      * assert (x * x = 0) by lra. destruct (Rmult_integral _ _ H0); assumption.
      * apply IH. lra.
    + intros H. inversion H as [|? ? H0 Hrest]; subst.
      apply IH in Hrest. rewrite Hrest. lra.
Qed.

Lemma sum_squares_scaled c row :
  c <> 0 -> sum_squares (map (fun x => x / c) row) = sum_squares row / (c * c).
Proof.
  intros Hc. induction row as [|x xs IH].
  - unfold sum_squares. simpl. field. assumption.
  - change (sum_squares (map (fun x0 => x0 / c) (x :: xs)))
      with (x / c * (x / c) + sum_squares (map (fun x0 => x0 / c) xs)).
    change (sum_squares (x :: xs)) with (x * x + sum_squares xs).
    rewrite IH. field. assumption.
Qed.

Lemma norm_nonzero row : sum_squares row <> 0 -> sqrt (sum_squares row) <> 0.
Proof.
  intros H. pose proof (sum_squares_nonneg row) as Hs.
  assert (0 < sqrt (sum_squares row)) by (apply sqrt_lt_R0; lra). lra.
Qed.

(** [normalize_row] never divides by zero. *)
Lemma normalize_row_Ok row : normalize_row row = Ok (normalized row).
Proof.
  unfold normalize_row, normalized.
  destruct (Req_dec_T (sum_squares row) 0) as [|Hs]; [reflexivity|].
  apply mapM_total, Forall_forall. intros x _.
  apply divide_Ok, norm_nonzero, Hs.
Qed.

Lemma normalize_Ok X : normalize X = Ok (map normalized X).
Proof.
  unfold normalize. apply mapM_total, Forall_forall. intros row _.
  apply normalize_row_Ok.
Qed.

Lemma normalized_zero row :
  Forall (fun x => x = 0) row -> normalized row = row.
Proof.
  intros H. unfold normalized. apply sum_squares_zero in H.
  destruct (Req_dec_T (sum_squares row) 0); [reflexivity | contradiction].
Qed.

Lemma normalized_unit row :
  sum_squares row <> 0 -> sum_squares (normalized row) = 1.
Proof.
  intros Hs. unfold normalized.
  destruct (Req_dec_T (sum_squares row) 0); [contradiction|].
  rewrite sum_squares_scaled by (apply norm_nonzero, Hs).
  rewrite sqrt_sqrt by apply sum_squares_nonneg. field. assumption.
Qed.

Lemma dot_self u : dot u u = sum_squares u.
Proof.
  unfold dot, sum_squares. induction u as [|x xs IH]; simpl; [reflexivity|].
  now rewrite IH.
Qed.

Lemma dot_zero_l u v : Forall (fun x => x = 0) u -> dot u v = 0.
Proof.
  unfold dot. intros H. revert v. induction H as [|x xs Hx _ IH]; intros v.
  - reflexivity.
  - destruct v as [|y ys]; simpl; [reflexivity|]. rewrite IH, Hx. lra.
Qed.

Lemma dot_zero_r u v : Forall (fun x => x = 0) v -> dot u v = 0.
Proof.
  unfold dot. intros H. revert u. induction H as [|y ys Hy _ IH]; intros u.
  - destruct u; reflexivity.
  - destruct u as [|x xs]; simpl; [reflexivity|]. rewrite IH, Hy. lra.
Qed.

(** ** The vectorizer *)

Lemma document_frequency_le docs t :
  (document_frequency docs t <= length docs)%nat.
Proof.
  unfold document_frequency. apply filter_length_le.
Qed.

Lemma idf_Ok docs t : idf docs t = Ok (idf_value docs t).
Proof.
  unfold idf, idf_value. rewrite divide_Ok; [reflexivity|].
  pose proof (pos_INR (document_frequency docs t)). lra.
Qed.

Lemma idf_value_pos docs t : 1 <= idf_value docs t.
Proof.
  unfold idf_value.
  pose proof (pos_INR (document_frequency docs t)) as Hd.
  pose proof (le_INR _ _ (document_frequency_le docs t)) as Hle.
  set (d := INR (document_frequency docs t)) in *.
  set (n := INR (length docs)) in *.
  assert (Hq : 1 <= (1 + n) / (1 + d)).
  { apply (Rmult_le_reg_r (1 + d)); [lra|].
    unfold Rdiv. rewrite Rmult_assoc, Rinv_l by lra. lra. }
  destruct Hq as [Hq|Hq].
  - pose proof (ln_increasing 1 _ Rlt_0_1 Hq) as Hln. rewrite ln_1 in Hln. lra.
  - rewrite <- Hq, ln_1. lra.
Qed.

Lemma weigh_weights docs terms doc :
  weigh (map (idf_value docs) terms) (map (fun t => term_count t doc) terms) =
  weights docs terms doc.
Proof.
  unfold weigh, weights. induction terms as [|t ts IH]; simpl; [reflexivity|].
  now rewrite IH.
Qed.

Lemma mem_In t l : mem t l = true <-> In t l.
Proof.
  unfold mem. rewrite existsb_exists. split.
  - intros (x & Hx & Heq). apply String.eqb_eq in Heq. now subst.
  - intros H. exists t. split; [assumption | apply String.eqb_refl].
Qed.

(** A document without a vocabulary term has an all-zero row. *)
Lemma weights_featureless docs terms doc :
  has_feature terms doc = false -> Forall (fun x => x = 0) (weights docs terms doc).
Proof.
  intros H. unfold weights. apply Forall_forall. intros x Hx.
  apply in_map_iff in Hx. destruct Hx as (t & <- & Ht).
  assert (Hc : term_count t doc = 0%nat).
  { unfold term_count. apply count_occ_not_In. intros Hin.
    assert (has_feature terms doc = true); [|congruence].
    unfold has_feature. apply existsb_exists. exists t.
    split; [assumption | now apply mem_In]. }
  rewrite Hc. simpl. lra.
Qed.

(** A document with a vocabulary term has a non-zero row. *)
Lemma weights_feature docs terms doc :
  has_feature terms doc = true -> sum_squares (weights docs terms doc) <> 0.
Proof.
  intros H Hz. unfold has_feature in H. apply existsb_exists in H.
  destruct H as (t & Hdoc & Hterm). apply mem_In in Hterm.
  apply sum_squares_zero in Hz. rewrite Forall_forall in Hz.
  assert (Hx : INR (term_count t doc) * idf_value docs t = 0).
  { apply Hz. unfold weights. apply in_map_iff. exists t. auto. }
  assert (Hc : 0 < INR (term_count t doc)).
  { apply lt_0_INR. unfold term_count. now apply count_occ_In. }
  pose proof (idf_value_pos docs t) as Hidf.
  assert (0 < INR (term_count t doc) * idf_value docs t).
  { apply Rmult_lt_0_compat; lra. }
  lra.
Qed.

Lemma feature_row_unit docs terms doc :
  has_feature terms doc = true ->
  sum_squares (normalized (normalized (weights docs terms doc))) = 1.
Proof.
  intros H. apply normalized_unit.
  rewrite normalized_unit by (apply weights_feature; assumption). lra.
Qed.

Lemma feature_row_zero docs terms doc :
  has_feature terms doc = false ->
  Forall (fun x => x = 0) (normalized (normalized (weights docs terms doc))).
Proof.
  intros H. pose proof (weights_featureless docs terms doc H) as Hz.
  assert (E : normalized (weights docs terms doc) = weights docs terms doc)
    by (apply normalized_zero; assumption).
  rewrite E, E. assumption.
Qed.

Section Vectorizer.
Variable stop_words : list string.

Lemma decode_present (data : DataFrame) :
  forallb present data = true ->
  exists texts,
    mapM decode (map content data) = Ok texts /\
    map (analyze stop_words) texts = analyzed stop_words data.
Proof.
  induction data as [|e data IH]; simpl; intros H.
  - exists []. auto.
  - apply andb_prop in H. destruct H as [He H].
    destruct (IH H) as (texts & Htexts & Hdocs).
    unfold present in He. destruct (content e) as [c|] eqn:Hc; [|discriminate].
    exists (c :: texts). simpl. rewrite Htexts. simpl. rewrite Hdocs. auto.
Qed.

Lemma decode_missing (data : DataFrame) :
  forallb present data = false ->
  mapM decode (map content data) =
  Raise (ValueError "np.nan is an invalid document, expected byte or unicode string.").
Proof.
  induction data as [|e data IH]; simpl; intros H; [discriminate|].
  unfold present in H. destruct (content e) as [c|]; simpl in *; [|reflexivity].
  now rewrite (IH H).
Qed.

(** What [fit_transform] does on every catalog. *)
Lemma fit_transform_spec max_features (data : DataFrame) :
  fit_transform stop_words max_features (map content data) =
  if forallb present data then
    match concat (analyzed stop_words data) with
    | [] =>
        Raise (ValueError "empty vocabulary; perhaps the documents only contain stop words")
    | _ :: _ =>
        Ok (map (fun doc =>
                   normalized (weights (analyzed stop_words data)
                                 (vocabulary max_features (analyzed stop_words data)) doc))
              (analyzed stop_words data))
    end
  else
    Raise (ValueError "np.nan is an invalid document, expected byte or unicode string.").
Proof.
  unfold fit_transform. destruct (forallb present data) eqn:Hp.
  - destruct (decode_present data Hp) as (texts & Htexts & Hdocs).
    rewrite Htexts. cbn [bind]. rewrite Hdocs.
    destruct (concat (analyzed stop_words data)); [reflexivity|].
    rewrite (mapM_total _ (idf_value (analyzed stop_words data))).
    2:{ apply Forall_forall. intros t _. apply idf_Ok. }
    cbn [bind]. rewrite normalize_Ok, !map_map. f_equal.
    apply map_ext. intros doc. now rewrite weigh_weights.
  - now rewrite (decode_missing data Hp).
Qed.

(** What [compute_cosine_similarity] does on every catalog. *)
Lemma compute_cosine_similarity_spec (data : DataFrame) :
  compute_cosine_similarity stop_words data =
  if forallb present data then
    match concat (analyzed stop_words data) with
    | [] =>
        Raise (ValueError "empty vocabulary; perhaps the documents only contain stop words")
    | _ :: _ => Ok (similarity (feature_rows 5000 (analyzed stop_words data)))
    end
  else
    Raise (ValueError "np.nan is an invalid document, expected byte or unicode string.").
Proof.
  unfold compute_cosine_similarity. rewrite fit_transform_spec.
  destruct (forallb present data); [|reflexivity].
  destruct (concat (analyzed stop_words data)); [reflexivity|].
  cbn [bind]. unfold cosine_similarity. rewrite normalize_Ok. cbn [bind].
  unfold similarity, feature_rows. rewrite !map_map. reflexivity.
Qed.

(** No catalog makes the construction divide by zero. *)
Lemma compute_cosine_similarity_no_division_by_zero (data : DataFrame) :
  compute_cosine_similarity stop_words data <> Raise ZeroDivisionError.
Proof.
  rewrite compute_cosine_similarity_spec.
  destruct (forallb present data); [|discriminate].
  destruct (concat (analyzed stop_words data)); discriminate.
Qed.

Lemma compute_cosine_similarity_Ok (data : DataFrame) M :
  compute_cosine_similarity stop_words data = Ok M ->
  forallb present data = true /\
  concat (analyzed stop_words data) <> [] /\
  M = similarity (feature_rows 5000 (analyzed stop_words data)).
Proof.
  rewrite compute_cosine_similarity_spec.
  destruct (forallb present data); [|discriminate].
  destruct (concat (analyzed stop_words data)); [discriminate|].
  intros H. injection H as <-. repeat split. discriminate.
Qed.
End Vectorizer.

Lemma entry_at_similarity U i j :
  entry_at (similarity U) i j =
  match nth_error U i, nth_error U j with
  | Some u, Some v => Some (dot u v)
  | _, _ => None
  end.
Proof.
  unfold entry_at, similarity. rewrite nth_error_map.
  destruct (nth_error U i) as [u|]; simpl; [|reflexivity].
  rewrite nth_error_map. destruct (nth_error U j); reflexivity.
Qed.

Lemma feature_rows_nth stop_words (data : DataFrame) i e :
  nth_error data i = Some e ->
  forallb present data = true ->
  exists c,
    content e = Some c /\
    nth_error (feature_rows 5000 (analyzed stop_words data)) i =
    Some (normalized (normalized
            (weights (analyzed stop_words data)
               (vocabulary 5000 (analyzed stop_words data))
               (analyze stop_words c)))).
Proof.
  intros He Hp. rewrite forallb_forall in Hp.
  specialize (Hp e (nth_error_In _ _ He)). unfold present in Hp.
  destruct (content e) as [c|] eqn:Hc; [|discriminate].
  exists c. split; [reflexivity|].
  unfold feature_rows, analyzed. rewrite !nth_error_map, He. simpl.
  now rewrite Hc.
Qed.

(** The matrix is square over the rows of the catalog. *)
Lemma compute_cosine_similarity_shape stop_words (data : DataFrame) M :
  compute_cosine_similarity stop_words data = Ok M ->
  length M = length data /\ Forall (fun row => length row = length data) M.
Proof.
  intros H. apply compute_cosine_similarity_Ok in H. destruct H as (_ & _ & ->).
  unfold similarity, feature_rows, analyzed. rewrite !length_map.
  split; [reflexivity|]. apply Forall_forall. intros row Hrow.
  apply in_map_iff in Hrow. destruct Hrow as (u & <- & _).
  now rewrite !length_map.
Qed.

(** ** The similarity matrix *)

Lemma similarity_diagonal stop_words (data : DataFrame) M i e c :
  compute_cosine_similarity stop_words data = Ok M ->
  nth_error data i = Some e -> content e = Some c ->
  entry_at M i i =
  Some (if has_feature (vocabulary 5000 (analyzed stop_words data)) (analyze stop_words c)
        then 1 else 0).
Proof.
  intros HM He Hc. apply compute_cosine_similarity_Ok in HM.
  destruct HM as (Hp & _ & ->).
  destruct (feature_rows_nth stop_words data i He Hp) as (c' & Hc' & Hrow).
  assert (c' = c) by congruence. subst c'.
  rewrite entry_at_similarity, Hrow, dot_self. f_equal.
  destruct (has_feature _ _) eqn:Hf.
  - now apply feature_row_unit.
  - apply sum_squares_zero. now apply feature_row_zero.
Qed.

Lemma similarity_featureless stop_words (data : DataFrame) M i e c :
  compute_cosine_similarity stop_words data = Ok M ->
  nth_error data i = Some e -> content e = Some c ->
  has_feature (vocabulary 5000 (analyzed stop_words data)) (analyze stop_words c) = false ->
  exists row,
    nth_error M i = Some row /\ length row = length data /\
    Forall (fun x => x = 0) row /\
    Forall (fun r => nth_error r i = Some 0) M.
Proof.
  intros HM He Hc Hf.
  pose proof (compute_cosine_similarity_shape _ _ HM) as [HlenM Hrows].
  apply compute_cosine_similarity_Ok in HM. destruct HM as (Hp & _ & ->).
  destruct (feature_rows_nth stop_words data i He Hp) as (c' & Hc' & Hrow).
  assert (c' = c) by congruence. subst c'.
  pose proof (feature_row_zero (analyzed stop_words data) _ _ Hf) as Hz.
  set (U := feature_rows 5000 (analyzed stop_words data)) in *.
  set (u := normalized (normalized _)) in *.
  exists (map (dot u) U). repeat split.
  - unfold similarity. now rewrite nth_error_map, Hrow.
  - unfold U, feature_rows, analyzed. now rewrite !length_map.
  - apply Forall_forall. intros x Hx. apply in_map_iff in Hx.
    destruct Hx as (v & <- & _). now apply dot_zero_l.
  - apply Forall_forall. intros r Hr. unfold similarity in Hr.
    apply in_map_iff in Hr. destruct Hr as (v & <- & _).
    rewrite nth_error_map, Hrow. simpl. f_equal. now apply dot_zero_r.
Qed.

(** C2 fails as stated: nothing forces the diagonal.  In [sparse_df] the
    first row has the empty string for content, its feature vector is all
    zero, and its diagonal entry is 0. *)
Lemma diagonal_of_empty_content_is_zero :
  exists M,
    compute_cosine_similarity sample_stop_words sparse_df = Ok M /\
    entry_at M 0 0 = Some 0 /\ entry_at M 0 0 <> Some 1.
Proof.
  assert (HM : compute_cosine_similarity sample_stop_words sparse_df =
               Ok (similarity (feature_rows 5000 (analyzed sample_stop_words sparse_df)))).
  { rewrite compute_cosine_similarity_spec. reflexivity. }
  eexists. split; [exact HM|].
  assert (H0 : entry_at (similarity (feature_rows 5000 (analyzed sample_stop_words sparse_df)))
                 0 0 = Some 0).
  { rewrite (@similarity_diagonal sample_stop_words sparse_df _ 0
               (entry "A" "Movie" "") ""%string HM eq_refl eq_refl).
    reflexivity. }
  split; [exact H0|]. rewrite H0. intros H. injection H as H. lra.
Qed.

(** C2 (amended).  On every catalog for which the matrix is built, a row
    whose content is empty or holds stop words only has the diagonal entry
    [M[i][i] = 0], not 1, and its similarities with all the rows are 0: its
    row and its column of the matrix are zero. *)
Theorem cosine_similarity_diagonal
    (stop_words : list string) (data : DataFrame) (M : list (list R))
    (i : nat) (e : CatalogEntry) (c : string) :
  compute_cosine_similarity stop_words data = Ok M ->
  nth_error data i = Some e -> content e = Some c ->
  analyze stop_words c = [] ->
  entry_at M i i = Some 0 /\ entry_at M i i <> Some 1 /\
  exists row,
    nth_error M i = Some row /\ length row = length data /\
    Forall (fun x => x = 0) row /\
    Forall (fun r => nth_error r i = Some 0) M.
Proof.
  intros HM He Hc Hnil.
  assert (Hf : has_feature (vocabulary 5000 (analyzed stop_words data))
                 (analyze stop_words c) = false) by now rewrite Hnil.
  assert (Hdiag : entry_at M i i = Some 0).
  { rewrite (similarity_diagonal _ _ _ HM He Hc), Hf. reflexivity. }
  split; [exact Hdiag|]. split.
  - rewrite Hdiag. intros H. injection H as H. lra.
  - exact (similarity_featureless _ _ _ HM He Hc Hf).
Qed.

Lemma cosine_similarity_diagonal_witness :
  entry_at (similarity (feature_rows 5000 (analyzed sample_stop_words sparse_df))) 1 1 =
    Some 0 /\
  entry_at (similarity (feature_rows 5000 (analyzed sample_stop_words sparse_df))) 1 1 <>
    Some 1 /\
  exists row,
    nth_error (similarity (feature_rows 5000 (analyzed sample_stop_words sparse_df))) 1 =
      Some row /\
    length row = length sparse_df /\
    Forall (fun x => x = 0) row /\
    Forall (fun r => nth_error r 1 = Some 0)
      (similarity (feature_rows 5000 (analyzed sample_stop_words sparse_df))).
Proof.
  apply (@cosine_similarity_diagonal sample_stop_words sparse_df
           (similarity (feature_rows 5000 (analyzed sample_stop_words sparse_df)))
           1 (entry "B" "Movie" "The, and of THE") "The, and of THE").
  - rewrite compute_cosine_similarity_spec. reflexivity.
  - reflexivity.
  - reflexivity.
  - reflexivity.
Defined.

(** The diagonal of the other rows is 1 over the real numbers
    ([similarity_diagonal]) but not in float64.  The third row of [sparse_df]
    has two terms of the same weight; normalised by the vectorizer and again
    by [cosine_similarity], its product with itself is the float next above
    1. *)
Lemma float64_diagonal_is_not_one :
  let w := Float64.idf_one_of_three in
  let u := Float64.normalize_row (Float64.normalize_row [w; w]) in
  Float64.dot u u = Float64.one_plus_ulp /\
  PrimFloat.eqb (Float64.dot u u) Float64.one = false.
Proof.
  split; vm_compute; reflexivity.
Qed.

(** C8 fails as stated: the construction does not complete on every such
    catalog.  When no entry has a term outside the stop words the vectorizer
    raises [ValueError] (empty vocabulary), and a content that is missing, as
    [read_csv] loads an empty field, makes it raise [ValueError] too. *)
Lemma vectorizer_fails_without_terms :
  compute_cosine_similarity sample_stop_words empty_content_df =
    Raise (ValueError "empty vocabulary; perhaps the documents only contain stop words") /\
  compute_cosine_similarity sample_stop_words missing_content_df =
    Raise (ValueError "np.nan is an invalid document, expected byte or unicode string.").
Proof.
  split; rewrite compute_cosine_similarity_spec; reflexivity.
Qed.

(** C8 (amended).  On a catalog whose contents are all strings, at least one
    of them with a term outside the stop words, the vectorizer and the
    similarity matrix are built, with no division by zero.  An entry whose
    content is empty or holds stop words only then has similarity exactly 0
    with every entry: its row and its column of the matrix are zero. *)
Theorem empty_content_has_zero_similarity
    (stop_words : list string) (data : DataFrame)
    (i : nat) (e : CatalogEntry) (c : string) :
  forallb present data = true ->
  concat (analyzed stop_words data) <> [] ->
  nth_error data i = Some e -> content e = Some c ->
  analyze stop_words c = [] ->
  exists M row,
    compute_cosine_similarity stop_words data = Ok M /\
    nth_error M i = Some row /\ length row = length data /\
    Forall (fun x => x = 0) row /\
    Forall (fun r => nth_error r i = Some 0) M.
Proof.
  intros Hp Hterms He Hc Hnil.
  assert (HM : compute_cosine_similarity stop_words data =
               Ok (similarity (feature_rows 5000 (analyzed stop_words data)))).
  { rewrite compute_cosine_similarity_spec, Hp.
    destruct (concat (analyzed stop_words data)); [contradiction | reflexivity]. }
  assert (Hf : has_feature (vocabulary 5000 (analyzed stop_words data))
                 (analyze stop_words c) = false) by now rewrite Hnil.
  destruct (similarity_featureless _ _ _ HM He Hc Hf) as (row & Hrow).
  exists (similarity (feature_rows 5000 (analyzed stop_words data))), row.
  split; assumption.
Qed.

Lemma empty_content_has_zero_similarity_witness :
  exists M row,
    compute_cosine_similarity sample_stop_words sparse_df = Ok M /\
    nth_error M 1 = Some row /\ length row = length sparse_df /\
    Forall (fun x => x = 0) row /\
    Forall (fun r => nth_error r 1 = Some 0) M.
Proof.
  apply (@empty_content_has_zero_similarity sample_stop_words sparse_df 1
           (entry "B" "Movie" "The, and of THE") "The, and of THE").
  - reflexivity.
  - vm_compute. discriminate.
  - reflexivity.
  - reflexivity.
  - reflexivity.
Defined.


(** ** The program's own matrix *)

Lemma Rltb_irrefl x : Rltb x x = false.
Proof.
  unfold Rltb. destruct (Rlt_dec x x) as [H|]; [|reflexivity].
  exfalso. apply (Rlt_irrefl _ H).
Qed.

(** The matrix built from the catalog has a row, as long as the catalog, for
    every row of the catalog: the calls of [recommend_by_title] on it never
    leave the matrix or the catalog. *)
Lemma compute_cosine_similarity_row stop_words (data : DataFrame) M idx e :
  compute_cosine_similarity stop_words data = Ok M ->
  nth_error data idx = Some e ->
  exists row, nth_error M idx = Some row /\ length row = length data.
Proof.
  intros HM He. destruct (compute_cosine_similarity_shape _ _ HM) as [Hlen Hrows].
  destruct (nth_error M idx) as [row|] eqn:Hrow.
  - exists row. split; [reflexivity|]. rewrite Forall_forall in Hrows.
    apply Hrows. eapply nth_error_In; eauto.
  - apply nth_error_None in Hrow.
    assert (idx < length data)%nat by (apply nth_error_Some; congruence). lia.
Qed.

(** The page's query succeeds for a title that labels one row, once the
    matrix is built. *)
Lemma recommend_unique_title stop_words (df : DataFrame) M t idx e :
  compute_cosine_similarity stop_words df = Ok M ->
  nth_error df idx = Some e -> title e = t ->
  (forall j e', nth_error df j = Some e' -> title e' = t -> j = idx) ->
  exists rows, recommend stop_words df t = Ok rows /\ (length rows <= 6)%nat.
Proof.
  intros HM He Ht Huniq.
  destruct (compute_cosine_similarity_row _ _ _ HM He) as (row & Hrow & Hlen).
  unfold recommend, recommend_by_title_default. rewrite HM. cbn [bind].
  rewrite (@recommend_by_title_unique R Rltb df M t 6 idx e row He Ht Huniq Hrow)
    by (rewrite Hlen; apply le_n).
  eexists. split; [reflexivity|].
  rewrite length_map. unfold slice_to.
  change (0 <=? 6)%Z with true. cbv iota.
  change (Z.to_nat 6) with 6%nat. apply firstn_le_length.
Qed.

(** * Further properties of the program *)

Local Close Scope R_scope.

(** ** The title index, for every catalog *)

Lemma combine_map_fst {A B : Type} (l : list A) (l' : list B) :
  length l = length l' -> map fst (combine l l') = l.
Proof.
  revert l'; induction l as [|x xs IH]; intros [|y ys] H; simpl in *;
    try discriminate; [reflexivity|].
  f_equal. apply IH. lia.
Qed.

(** X1.  [indices] has one entry per row of the catalog, in catalog order:
    its labels are the titles, duplicates included, and its values the row
    positions.  [drop_duplicates()] never removes an entry. *)
Theorem indices_one_entry_per_row (df : DataFrame) :
  map fst (indices df) = df_title df /\
  map snd (indices df) = df_index df /\
  length (indices df) = length df.
Proof.
  assert (Hlen : length (df_title df) = length (df_index df)).
  { unfold df_title, df_index. now rewrite length_map, length_seq. }
  split; [|split].
  - rewrite indices_all_rows. now apply combine_map_fst.
  - apply indices_values.
  - rewrite <- (length_map snd), indices_values. unfold df_index.
    apply length_seq.
Qed.

Lemma labelled_positions_from (df : DataFrame) t : forall k,
  map snd (filter (fun lv : string * nat => String.eqb (fst lv) t)
             (combine (map title df) (seq k (length df)))) =
  map fst (filter (fun ie : nat * CatalogEntry => String.eqb (title (snd ie)) t)
             (enumerate_from k df)).
Proof.
  induction df as [|e df IH]; intros k; simpl; [reflexivity|].
  destruct (String.eqb (title e) t); simpl; now rewrite IH.
Qed.

Lemma labelled_positions (df : DataFrame) t :
  map snd (labelled df t) = positions df t.
Proof.
  unfold labelled, positions, enumerate. rewrite indices_all_rows.
  apply labelled_positions_from.
Qed.

(** X2.  What [indices[title]] evaluates to is decided by the rows that carry
    the title: [KeyError] when there is none, the row position when there is
    one, and the sub-series of all their positions, in catalog order, when
    there are several. *)
Theorem Series_getitem_by_positions (df : DataFrame) (t : string) :
  Series_getitem (indices df) t =
  match positions df t with
  | [] => Raise (KeyError (LStr t))
  | [v] => Ok (Scalar v)
  | vs => Ok (SubSeries vs)
  end.
Proof.
  rewrite <- labelled_positions. unfold Series_getitem. fold (labelled df t).
  destruct (labelled df t) as [|[l v] [|[l2 v2] rest]]; reflexivity.
Qed.

Lemma positions_In (df : DataFrame) t k :
  In k (positions df t) <-> exists e, nth_error df k = Some e /\ title e = t.
Proof.
  unfold positions. rewrite in_map_iff. split.
  - intros ([k' e] & <- & Hin). apply filter_In in Hin. destruct Hin as [Hin Ht].
    apply enumerate_In in Hin. apply String.eqb_eq in Ht. eauto.
  - intros (e & He & Ht). exists (k, e). split; [reflexivity|].
    apply filter_In. split; [now apply enumerate_In|]. now apply String.eqb_eq.
Qed.

(** ** The engine, for every catalog and matrix *)

Section EngineMore.
Context {score : Type} (score_ltb : score -> score -> bool).

Lemma getitem_SubSeries_valid (df : DataFrame) t vs :
  Series_getitem (indices df) t = Ok (SubSeries vs) ->
  Forall (fun k => k < length df) vs.
Proof.
  unfold Series_getitem. fold (labelled df t).
  pose proof (labelled_In df t) as HIn.
  destruct (labelled df t) as [|[l v] [|[l2 v2] rest]]; try discriminate.
  intros H. injection H as <-. apply Forall_forall. intros k Hk.
  change (In k (map snd ((l, v) :: (l2, v2) :: rest))) in Hk.
  apply in_map_iff in Hk. destruct Hk as ([l' k'] & <- & Hk).
  apply HIn in Hk. destruct Hk as (_ & e & He & _).
  apply nth_error_Some. simpl. congruence.
Qed.

Lemma select_movie_first (df : DataFrame) t m :
  select_movie df (Some t) = Ok m ->
  exists k,
    nth_error df k = Some m /\ title m = t /\
    forall j e, j < k -> nth_error df j = Some e -> title e <> t.
Proof.
  unfold select_movie. induction df as [|e0 df IH]; simpl; [discriminate|].
  destruct (String.eqb_spec (title e0) t) as [Heq|Hne].
  - intros H. injection H as <-. exists 0. repeat split; auto. intros j e Hj. lia.
  - intros H. destruct (IH H) as (k & Hk & Ht & Hfirst).
    exists (S k). repeat split; auto.
    intros [|j] e Hj He; simpl in He.
    + injection He as <-. assumption.
    + apply (Hfirst j); [lia | assumption].
Qed.

Lemma select_movie_present (df : DataFrame) t :
  In t (df_title df) -> exists m, select_movie df (Some t) = Ok m.
Proof.
  unfold select_movie, df_title. intros H. apply in_map_iff in H.
  destruct H as (e & Ht & He).
  destruct (filter (fun e0 => String.eqb (title e0) t) df) as [|m rest] eqn:Hf;
    [|eauto].
  exfalso. assert (Hin : In e (filter (fun e0 => String.eqb (title e0) t) df)).
  { apply filter_In. split; [assumption|]. now apply String.eqb_eq. }
  rewrite Hf in Hin. destruct Hin.
Qed.

(** A network whose 200 replies with a JSON body all have the shape of a
    search result makes every lookup return. *)
Lemma fetch_poster_shaped_returns TMDB_API_KEY network t ty :
  (forall req data, network req = Response 200 (Some data) -> tmdb_shaped data = true) ->
  exists p, run network (fetch_poster TMDB_API_KEY t ty) = Ok p.
Proof.
  intros Hshape. unfold fetch_poster. destruct TMDB_API_KEY as [key|]; [|simpl; eauto].
  destruct (key_set (Some key)); [|simpl; eauto]. simpl.
  destruct (network (poster_request key t ty)) as [status body|] eqn:Hnet;
    [|simpl; eauto].
  destruct (Z.eqb_spec status 200) as [->|Hne].
  - destruct body as [data|]; [|simpl; eauto].
    destruct (read_poster_shaped data (Hshape _ _ Hnet)) as [r Hr].
    rewrite Hr. simpl. eauto.
  - unfold read_poster. destruct (Z.eqb_spec status 200); [contradiction|].
    simpl. eauto.
Qed.

(** X3.  For a title that labels two rows or more, [recommend_by_title]
    raises [ValueError] whatever [n] is, as soon as the matrix has a row for
    every row of the catalog; the page that has such a title selected fails
    with that error once the poster of the selected entry is fetched. *)
Theorem recommend_by_title_duplicated_title_raises
    (df : DataFrame) (cosine_sim : list (list score)) (t : string) (n : Z)
    (i j : nat) (ei ej : CatalogEntry) :
  nth_error df i = Some ei -> title ei = t ->
  nth_error df j = Some ej -> title ej = t ->
  i <> j ->
  length cosine_sim = length df ->
  recommend_by_title score_ltb df cosine_sim t n =
    Raise (ValueError ambiguous_truth_value) /\
  forall TMDB_API_KEY network,
    (forall req data, network req = Response 200 (Some data) -> tmdb_shaped data = true) ->
    title_mode score_ltb TMDB_API_KEY network df cosine_sim (Some t) =
      Raise (ValueError ambiguous_truth_value).
Proof.
  intros Hi Hti Hj Htj Hne Hlen.
  assert (Hraise : forall n', recommend_by_title score_ltb df cosine_sim t n' =
                              Raise (ValueError ambiguous_truth_value)).
  { intros n'. unfold recommend_by_title.
    destruct (getitem_duplicated df Hi Hti Hj Htj Hne) as (vs & Hsel & _ & _).
    pose proof (getitem_SubSeries_valid df t Hsel) as Hall.
    rewrite Hsel. cbn [bind].
    rewrite (mapM_total (loc_type df) (fun k => type (nth k df ei))).
    2:{ revert Hall. apply Forall_impl. intros k Hk. unfold loc_type.
        now rewrite (nth_error_nth' df ei Hk). }
    cbn [bind].
    rewrite (mapM_total (matrix_row cosine_sim) (fun k => nth k cosine_sim [])).
    2:{ revert Hall. apply Forall_impl. intros k Hk. unfold matrix_row.
        rewrite <- Hlen in Hk. now rewrite (nth_error_nth' cosine_sim [] Hk). }
    reflexivity. }
  split; [apply Hraise|].
  intros key network Hshape. unfold title_mode.
  destruct (select_movie_present df t) as [m Hm].
  { unfold df_title. rewrite <- Hti. apply in_map. eapply nth_error_In; eauto. }
  rewrite Hm. cbn [bind].
  destruct (fetch_poster_shaped_returns key network (title m) (type m) Hshape)
    as [p Hp].
  rewrite Hp. cbn [bind]. unfold recommend_by_title_default.
  rewrite Hraise. reflexivity.
Qed.

Lemma NoDup_firstn {A : Type} m (l : list A) : NoDup l -> NoDup (firstn m l).
Proof.
  intros H. rewrite <- (firstn_skipn m l) in H.
  now apply NoDup_app_remove_r in H.
Qed.

Lemma ranking_positions_NoDup (row : list score) :
  NoDup (map fst (sorted (@snd nat score) score_ltb true (enumerate row))).
Proof.
  eapply Permutation_NoDup.
  - symmetry. apply Permutation_map, sorted_perm.
  - unfold enumerate. rewrite enumerate_from_fst. apply seq_NoDup.
Qed.

(** X4.  No row is recommended twice: the row positions of the result are
    pairwise distinct. *)
Theorem recommend_by_title_no_duplicates
    (df : DataFrame) (cosine_sim : list (list score)) (t : string) (n : Z)
    (rows : list (nat * CatalogEntry)) :
  recommend_by_title score_ltb df cosine_sim t n = Ok rows ->
  NoDup (map fst rows) /\ NoDup rows.
Proof.
  intros H. destruct (recommend_by_title_Ok_rows _ _ _ _ _ H)
    as (idx & e & row & _ & _ & _ & -> & _).
  assert (HN : NoDup (map fst
            (map (fun i : nat * score => (fst i, nth (fst i) df e))
               (slice_to n
                  (filter (fun i : nat * score => is_candidate df (type e) idx (fst i))
                     (sorted (@snd nat score) score_ltb true (enumerate row))))))).
  { rewrite map_map. simpl.
    destruct (slice_to_prefix n
                (filter (fun i : nat * score => is_candidate df (type e) idx (fst i))
                   (sorted (@snd nat score) score_ltb true (enumerate row))))
      as [m ->].
    rewrite <- firstn_map. apply NoDup_firstn, NoDup_map_filter,
      ranking_positions_NoDup. }
  split; [exact HN|]. eapply NoDup_map_inv. exact HN.
Qed.
End EngineMore.

Lemma recommend_by_title_duplicated_title_raises_witness :
  recommend_by_title Z.ltb mixed_duplicate_df duplicate_sim "A" 3 =
    Raise (ValueError ambiguous_truth_value) /\
  forall TMDB_API_KEY network,
    (forall req data, network req = Response 200 (Some data) -> tmdb_shaped data = true) ->
    title_mode Z.ltb TMDB_API_KEY network mixed_duplicate_df duplicate_sim (Some "A"%string) =
      Raise (ValueError ambiguous_truth_value).
Proof.
  apply (@recommend_by_title_duplicated_title_raises Z Z.ltb mixed_duplicate_df
           duplicate_sim "A" 3 0 2
           (entry "A" "Movie" "space adventure robots")
           (entry "A" "TV Show" "ocean documentary")).
  - reflexivity.
  - reflexivity.
  - reflexivity.
  - reflexivity.
  - discriminate.
  - reflexivity.
Defined.

Lemma recommend_by_title_no_duplicates_witness :
  NoDup (map fst [(3, entry "D" "Movie" "space robots");
                  (1, entry "B" "Movie" "space aliens")]) /\
  NoDup [(3, entry "D" "Movie" "space robots");
         (1, entry "B" "Movie" "space aliens")].
Proof.
  apply (@recommend_by_title_no_duplicates Z Z.ltb tie_df tie_sim "A" 2).
  reflexivity.
Defined.

Lemma StronglySorted_ranked {A : Type} (R : A -> A -> Prop) l a b :
  StronglySorted R l -> ranked_before a b l -> R a b.
Proof.
  intros HS (l1 & l2 & l3 & ->).
  apply StronglySorted_app in HS. destruct HS as (_ & HS & _).
  apply StronglySorted_inv in HS. destruct HS as [_ Ha].
  rewrite Forall_forall in Ha. apply Ha. apply in_or_app. right. left. reflexivity.
Qed.

Lemma ranked_before_map_inv {A B : Type} (f : A -> B) l a b :
  ranked_before a b (map f l) ->
  exists a' b', f a' = a /\ f b' = b /\ ranked_before a' b' l.
Proof.
  intros (l1 & l2 & l3 & H).
  apply map_eq_app in H. destruct H as (k1 & k2 & -> & _ & H).
  apply map_eq_cons in H. destruct H as (a' & k3 & -> & Ha & H).
  apply map_eq_app in H. destruct H as (k4 & k5 & -> & _ & H).
  apply map_eq_cons in H. destruct H as (b' & k6 & -> & Hb & _).
  exists a', b'. repeat split; auto. exists k1, k4, k6. reflexivity.
Qed.

Lemma StronglySorted_firstn {A : Type} (R : A -> A -> Prop) m l :
  StronglySorted R l -> StronglySorted R (firstn m l).
Proof.
  intros H. rewrite <- (firstn_skipn m l) in H.
  now apply StronglySorted_app in H.
Qed.

Section EngineOrder.
Context {score : Type} (score_ltb : score -> score -> bool).
Hypothesis ltb_asym : forall x y, score_ltb x y = true -> score_ltb y x = false.
Hypothesis ltb_negtrans :
  forall x y z, score_ltb x y = false -> score_ltb y z = false -> score_ltb x z = false.

Lemma filtered_descending df ty idx (row : list score) :
  StronglySorted (fun a b : nat * score => score_ltb (snd a) (snd b) = false)
    (filter (fun i : nat * score => is_candidate df ty idx (fst i))
       (sorted (@snd nat score) score_ltb true (enumerate row))).
Proof.
  apply StronglySorted_filter. now apply sorted_desc_descending.
Qed.

(** X5.  When [<] on the scores is a strict weak order, the result is in
    descending order of score: a row never stands before a row with a greater
    score in [cosine_sim[idx]]. *)
Theorem recommend_by_title_scores_descend
    (df : DataFrame) (cosine_sim : list (list score)) (t : string) (n : Z)
    (rows : list (nat * CatalogEntry)) (idx : nat) (row : list score)
    (a b : nat * CatalogEntry) (sa sb : score) :
  recommend_by_title score_ltb df cosine_sim t n = Ok rows ->
  Series_getitem (indices df) t = Ok (Scalar idx) ->
  nth_error cosine_sim idx = Some row ->
  ranked_before a b rows ->
  nth_error row (fst a) = Some sa -> nth_error row (fst b) = Some sb ->
  score_ltb sa sb = false.
Proof.
  intros H Hsel Hrow HB Hsa Hsb.
  destruct (recommend_by_title_Ok_rows _ _ _ _ _ H)
    as (idx' & e & row' & Hsel' & _ & Hrow' & -> & _).
  assert (idx' = idx) by congruence. subst idx'.
  assert (row' = row) by congruence. subst row'.
  apply ranked_before_map_inv in HB. destruct HB as ([ka xa] & [kb xb] & <- & <- & HB).
  simpl in Hsa, Hsb.
  set (F := filter (fun i : nat * score => is_candidate df (type e) idx (fst i))
              (sorted (@snd nat score) score_ltb true (enumerate row))) in *.
  destruct (slice_to_prefix n F) as [m Hm]. rewrite Hm in HB.
  assert (HS : StronglySorted
                 (fun a b : nat * score => score_ltb (snd a) (snd b) = false)
                 (firstn m F)).
  { apply StronglySorted_firstn. apply filtered_descending. }
  pose proof (StronglySorted_ranked HS HB) as Hab. simpl in Hab.
  assert (Hin : forall k x, In (k, x) (firstn m F) -> nth_error row k = Some x).
  { intros k x Hk. rewrite <- (firstn_skipn m F) in HS.
    assert (Hk' : In (k, x) F).
    { rewrite <- (firstn_skipn m F). apply in_or_app; auto. }
    apply filter_In in Hk'. destruct Hk' as [Hk' _]. now apply ranking_In in Hk'. }
  destruct HB as (l1 & l2 & l3 & HB).
  assert (Ha : nth_error row ka = Some xa).
  { apply Hin. rewrite HB. apply in_or_app. right. left. reflexivity. }
  assert (Hb : nth_error row kb = Some xb).
  { apply Hin. rewrite HB. apply in_or_app. right. right.
    apply in_or_app. right. left. reflexivity. }
  congruence.
Qed.

(** X6.  The result holds the best candidates: when [<] on the scores is a
    strict weak order, a candidate that is not returned has no greater score
    than any row that is. *)
Theorem recommend_by_title_returns_best
    (df : DataFrame) (cosine_sim : list (list score)) (t : string) (n : Z)
    (rows : list (nat * CatalogEntry)) (idx : nat) (e : CatalogEntry)
    (row : list score) (r : nat * CatalogEntry) (sr : score) (k : nat) (sk : score) :
  recommend_by_title score_ltb df cosine_sim t n = Ok rows ->
  Series_getitem (indices df) t = Ok (Scalar idx) ->
  nth_error df idx = Some e ->
  nth_error cosine_sim idx = Some row ->
  In r rows -> nth_error row (fst r) = Some sr ->
  is_candidate df (type e) idx k = true -> nth_error row k = Some sk ->
  ~ In k (map fst rows) ->
  score_ltb sr sk = false.
Proof.
  intros H Hsel He Hrow Hr Hsr Hk Hsk Hout.
  destruct (recommend_by_title_Ok_rows _ _ _ _ _ H)
    as (idx' & e' & row' & Hsel' & He' & Hrow' & -> & _).
  assert (idx' = idx) by congruence. subst idx'.
  assert (e' = e) by congruence. subst e'.
  assert (row' = row) by congruence. subst row'.
  set (F := filter (fun i : nat * score => is_candidate df (type e) idx (fst i))
              (sorted (@snd nat score) score_ltb true (enumerate row))) in *.
  destruct (slice_to_prefix n F) as [m Hm]. rewrite Hm in *.
  pose proof (filtered_descending df (type e) idx row) as HS. fold F in HS.
  rewrite <- (firstn_skipn m F) in HS.
  apply StronglySorted_app in HS. destruct HS as (_ & _ & Hcross).
  assert (HkF : In (k, sk) F).
  { apply filter_In. split; [now apply ranking_In | assumption]. }
  assert (HkS : In (k, sk) (skipn m F)).
  { rewrite <- (firstn_skipn m F) in HkF. apply in_app_or in HkF.
    destruct HkF as [HkP|]; [|assumption]. exfalso. apply Hout.
    rewrite map_map. simpl. apply in_map_iff. exists (k, sk). auto. }
  apply in_map_iff in Hr. destruct Hr as ([kr xr] & <- & HrP). simpl in Hsr.
  assert (xr = sr).
  { assert (HrF : In (kr, xr) F).
    { rewrite <- (firstn_skipn m F). apply in_or_app; auto. }
    apply filter_In in HrF. destruct HrF as [HrF _]. apply ranking_In in HrF.
    congruence. }
  subst xr. apply (Hcross _ _ HrP HkS).
Qed.
End EngineOrder.

Lemma Zltb_asym x y : (x <? y)%Z = true -> (y <? x)%Z = false.
Proof.
  intros H. apply Z.ltb_lt in H. apply Z.ltb_ge. lia.
Qed.

Lemma Zltb_negtrans x y z :
  (x <? y)%Z = false -> (y <? z)%Z = false -> (x <? z)%Z = false.
Proof.
  intros H1 H2. apply Z.ltb_ge in H1, H2. apply Z.ltb_ge. lia.
Qed.

Lemma recommend_by_title_scores_descend_witness :
  (1000 <? 300)%Z = false.
Proof.
  apply (@recommend_by_title_scores_descend Z Z.ltb Zltb_asym Zltb_negtrans
           tie_df tie_sim "A" 6
           [(3, entry "D" "Movie" "space robots");
            (1, entry "B" "Movie" "space aliens");
            (2, entry "C" "Movie" "space pirates")]
           0 [1000; 300; 300; 1000]%Z
           (3, entry "D" "Movie" "space robots")
           (1, entry "B" "Movie" "space aliens") 1000%Z 300%Z).
  - reflexivity.
  - reflexivity.
  - reflexivity.
  - exists [], [], [(2, entry "C" "Movie" "space pirates")]. reflexivity.
  - reflexivity.
  - reflexivity.
Defined.

Lemma recommend_by_title_returns_best_witness :
  (1000 <? 300)%Z = false.
Proof.
  apply (@recommend_by_title_returns_best Z Z.ltb Zltb_asym Zltb_negtrans
           tie_df tie_sim "A" 1
           [(3, entry "D" "Movie" "space robots")]
           0 (entry "A" "Movie" "space robots") [1000; 300; 300; 1000]%Z
           (3, entry "D" "Movie" "space robots") 1000%Z 2 300%Z).
  - reflexivity.
  - reflexivity.
  - reflexivity.
  - reflexivity.
  - left. reflexivity.
  - reflexivity.
  - reflexivity.
  - reflexivity.
  - simpl. intros [H|[]]. discriminate.
Defined.

(** X7.  For a title that labels exactly one row and a negative [n], the
    call returns the full ranking of the candidates (what [n = len(df)]
    returns) without its last [-n] rows. *)
Theorem recommend_by_title_negative_n_drops_last
    {score : Type} (score_ltb : score -> score -> bool)
    (df : DataFrame) (cosine_sim : list (list score)) (t : string) (n : Z)
    (idx : nat) (e : CatalogEntry) (row : list score) :
  nth_error df idx = Some e -> title e = t ->
  (forall j e', nth_error df j = Some e' -> title e' = t -> j = idx) ->
  nth_error cosine_sim idx = Some row -> length row = length df ->
  (n < 0)%Z ->
  exists full rows,
    recommend_by_title score_ltb df cosine_sim t (Z.of_nat (length df)) = Ok full /\
    recommend_by_title score_ltb df cosine_sim t n = Ok rows /\
    length full = length (candidates df (type e) idx) /\
    rows = firstn (length full - Z.to_nat (- n)) full.
Proof.
  intros He Ht Huniq Hrow Hlen Hn.
  assert (Hle : length row <= length df) by (rewrite Hlen; apply le_n).
  rewrite (@recommend_by_title_unique score score_ltb df cosine_sim t
             (Z.of_nat (length df)) idx e row He Ht Huniq Hrow Hle).
  rewrite (@recommend_by_title_unique score score_ltb df cosine_sim t
             n idx e row He Ht Huniq Hrow Hle).
  pose proof (filtered_indices score_ltb df (type e) idx row Hlen) as HP.
  set (F := filter (fun i0 : nat * score => is_candidate df (type e) idx (fst i0))
              (sorted (@snd nat score) score_ltb true (enumerate row))) in *.
  assert (HlenF : length F = length (candidates df (type e) idx)).
  { rewrite <- (Permutation_length HP). now rewrite length_map. }
  assert (HF : length F <= length df).
  { rewrite HlenF. unfold candidates, df_index.
    etransitivity; [apply filter_length_le|]. now rewrite length_seq. }
  do 2 eexists. split; [reflexivity|]. split; [reflexivity|].
  unfold slice_to.
  destruct (Z.leb_spec 0 (Z.of_nat (length df))) as [_|]; [|lia].
  destruct (Z.leb_spec 0 n) as [|_]; [lia|].
  rewrite Nat2Z.id, firstn_all2 by assumption.
  rewrite length_map. split; [assumption|]. now rewrite firstn_map.
Qed.

Lemma recommend_by_title_negative_n_drops_last_witness :
  exists full rows,
    recommend_by_title Z.ltb tie_df tie_sim "A" (Z.of_nat (length tie_df)) = Ok full /\
    recommend_by_title Z.ltb tie_df tie_sim "A" (-2) = Ok rows /\
    length full = length (candidates tie_df (type (entry "A" "Movie" "space robots")) 0) /\
    rows = firstn (length full - Z.to_nat (- (-2))) full.
Proof.
  apply (@recommend_by_title_negative_n_drops_last Z Z.ltb tie_df tie_sim "A" (-2)
           0 (entry "A" "Movie" "space robots") [1000; 300; 300; 1000]%Z).
  - reflexivity.
  - reflexivity.
  - intros j e' Hj Ht.
    destruct j as [|[|[|[|j]]]]; simpl in Hj; [reflexivity | | | |].
    + injection Hj as <-. discriminate.
    + injection Hj as <-. discriminate.
    + injection Hj as <-. discriminate.
    + destruct j; discriminate.
  - reflexivity.
  - reflexivity.
  - lia.
Defined.

(** ** The similarity matrix, for every catalog *)

Local Open Scope R_scope.

Lemma dot_comm u v : dot u v = dot v u.
Proof.
  unfold dot. revert v. induction u as [|x xs IH]; intros [|y ys]; simpl;
    try reflexivity.
  rewrite IH. lra.
Qed.

Lemma dot_nonneg u v :
  Forall (fun x => 0 <= x) u -> Forall (fun x => 0 <= x) v -> 0 <= dot u v.
Proof.
  unfold dot. intros Hu. revert v. induction Hu as [|x xs Hx _ IH]; intros v Hv.
  - simpl. lra.
  - destruct Hv as [|y ys Hy Hys]; simpl; [lra|].
    specialize (IH ys Hys). pose proof (Rmult_le_pos x y Hx Hy). lra.
Qed.

(** The inequality of arithmetic and geometric means, summed over the rows. *)
Lemma dot_le_squares u v : 2 * dot u v <= sum_squares u + sum_squares v.
Proof.
  revert v. induction u as [|x xs IH]; intros v.
  - unfold dot. simpl. pose proof (sum_squares_nonneg v).
    change (sum_squares []) with 0. lra.
  - destruct v as [|y ys].
    + unfold dot. simpl. pose proof (sum_squares_nonneg (x :: xs)).
      change (sum_squares []) with 0. lra.
    + change (dot (x :: xs) (y :: ys)) with (x * y + dot xs ys).
      change (sum_squares (x :: xs)) with (x * x + sum_squares xs).
      change (sum_squares (y :: ys)) with (y * y + sum_squares ys).
      specialize (IH ys). pose proof (Rle_0_sqr (x - y)) as Hs.
      unfold Rsqr in Hs. lra.
Qed.

Lemma weights_nonneg docs terms doc :
  Forall (fun x => 0 <= x) (weights docs terms doc).
Proof.
  unfold weights. apply Forall_forall. intros x Hx.
  apply in_map_iff in Hx. destruct Hx as (t & <- & _).
  apply Rmult_le_pos; [apply pos_INR|].
  pose proof (idf_value_pos docs t). lra.
Qed.

Lemma normalized_nonneg row :
  Forall (fun x => 0 <= x) row -> Forall (fun x => 0 <= x) (normalized row).
Proof.
  intros H. unfold normalized.
  destruct (Req_dec_T (sum_squares row) 0) as [|Hs]; [assumption|].
  apply Forall_forall. intros y Hy. apply in_map_iff in Hy.
  destruct Hy as (x & <- & Hx). rewrite Forall_forall in H.
  apply Rle_mult_inv_pos; [now apply H|].
  pose proof (sum_squares_nonneg row). apply sqrt_lt_R0. lra.
Qed.

(** Every row [cosine_similarity] multiplies is a non-negative vector of
    length 0 or 1. *)
Lemma feature_row_bounds docs terms doc :
  Forall (fun x => 0 <= x) (normalized (normalized (weights docs terms doc))) /\
  sum_squares (normalized (normalized (weights docs terms doc))) <= 1.
Proof.
  split.
  - apply normalized_nonneg, normalized_nonneg, weights_nonneg.
  - destruct (has_feature terms doc) eqn:Hf.
    + rewrite feature_row_unit by assumption. lra.
    + pose proof (feature_row_zero docs _ _ Hf) as Hz.
      apply sum_squares_zero in Hz. rewrite Hz. lra.
Qed.

Lemma feature_rows_In docs u :
  In u (feature_rows 5000 docs) ->
  Forall (fun x => 0 <= x) u /\ sum_squares u <= 1.
Proof.
  unfold feature_rows. intros H. apply in_map_iff in H.
  destruct H as (doc & <- & _). apply feature_row_bounds.
Qed.

Lemma feature_rows_length stop_words (data : DataFrame) :
  length (feature_rows 5000 (analyzed stop_words data)) = length data.
Proof.
  unfold feature_rows, analyzed. now rewrite !length_map.
Qed.

(** X8.  The matrix is symmetric: [M[i][j]] and [M[j][i]] are the same entry,
    present or not. *)
Theorem cosine_similarity_symmetric
    (stop_words : list string) (data : DataFrame) (M : list (list R)) (i j : nat) :
  compute_cosine_similarity stop_words data = Ok M ->
  entry_at M i j = entry_at M j i.
Proof.
  intros HM. apply compute_cosine_similarity_Ok in HM. destruct HM as (_ & _ & ->).
  rewrite !entry_at_similarity.
  destruct (nth_error (feature_rows 5000 (analyzed stop_words data)) i) as [u|];
    destruct (nth_error (feature_rows 5000 (analyzed stop_words data)) j) as [v|];
    try reflexivity.
  f_equal. apply dot_comm.
Qed.

(** X9.  The matrix has an entry for every pair of catalog rows, and no
    entry is negative. *)
Theorem cosine_similarity_entries_nonnegative
    (stop_words : list string) (data : DataFrame) (M : list (list R)) (i j : nat) :
  compute_cosine_similarity stop_words data = Ok M ->
  (i < length data)%nat -> (j < length data)%nat ->
  exists x, entry_at M i j = Some x /\ 0 <= x.
Proof.
  intros HM Hi Hj. apply compute_cosine_similarity_Ok in HM.
  destruct HM as (_ & _ & ->). rewrite entry_at_similarity.
  rewrite <- (feature_rows_length stop_words data) in Hi, Hj.
  destruct (nth_error (feature_rows 5000 (analyzed stop_words data)) i) as [u|] eqn:Hu.
  2:{ apply nth_error_None in Hu. lia. }
  destruct (nth_error (feature_rows 5000 (analyzed stop_words data)) j) as [v|] eqn:Hv.
  2:{ apply nth_error_None in Hv. lia. }
  apply nth_error_In, feature_rows_In in Hu, Hv.
  destruct Hu as [Hu0 _], Hv as [Hv0 _].
  exists (dot u v). split; [reflexivity|]. now apply dot_nonneg.
Qed.

Lemma cosine_similarity_symmetric_witness :
  entry_at (similarity (feature_rows 5000 (analyzed sample_stop_words scenario_df))) 0 1 =
  entry_at (similarity (feature_rows 5000 (analyzed sample_stop_words scenario_df))) 1 0.
Proof.
  apply (@cosine_similarity_symmetric sample_stop_words scenario_df).
  rewrite compute_cosine_similarity_spec. reflexivity.
Defined.

Lemma cosine_similarity_entries_nonnegative_witness :
  exists x,
    entry_at (similarity (feature_rows 5000 (analyzed sample_stop_words scenario_df))) 0 1 =
      Some x /\ 0 <= x.
Proof.
  apply (@cosine_similarity_entries_nonnegative sample_stop_words scenario_df).
  - rewrite compute_cosine_similarity_spec. reflexivity.
  - simpl. lia.
  - simpl. lia.
Defined.

Lemma feature_rows_nth_content stop_words (data : DataFrame) i e c :
  forallb present data = true ->
  nth_error data i = Some e -> content e = Some c ->
  nth_error (feature_rows 5000 (analyzed stop_words data)) i =
  Some (normalized (normalized
          (weights (analyzed stop_words data)
             (vocabulary 5000 (analyzed stop_words data))
             (analyze stop_words c)))).
Proof.
  intros Hp He Hc.
  destruct (feature_rows_nth stop_words data i He Hp) as (c' & Hc' & Hrow).
  assert (c' = c) by congruence. now subst c'.
Qed.

(** X10.  The matrix sees the content only: two entries with the same
    content have the same row and the same column of similarities. *)
Theorem same_content_same_similarities
    (stop_words : list string) (data : DataFrame) (M : list (list R))
    (i j : nat) (ei ej : CatalogEntry) (c : string) :
  compute_cosine_similarity stop_words data = Ok M ->
  nth_error data i = Some ei -> nth_error data j = Some ej ->
  content ei = Some c -> content ej = Some c ->
  nth_error M i = nth_error M j /\
  forall k, entry_at M k i = entry_at M k j.
Proof.
  intros HM Hi Hj Hci Hcj.
  apply compute_cosine_similarity_Ok in HM. destruct HM as (Hp & _ & ->).
  pose proof (feature_rows_nth_content stop_words data i Hp Hi Hci) as Hui.
  pose proof (feature_rows_nth_content stop_words data j Hp Hj Hcj) as Huj.
  split.
  - unfold similarity. rewrite !nth_error_map, Hui, Huj. reflexivity.
  - intros k. rewrite !entry_at_similarity, Hui, Huj. reflexivity.
Qed.

Lemma same_content_same_similarities_witness :
  nth_error (similarity (feature_rows 5000 (analyzed sample_stop_words scenario_df))) 0 =
  nth_error (similarity (feature_rows 5000 (analyzed sample_stop_words scenario_df))) 2 /\
  forall k,
    entry_at (similarity (feature_rows 5000 (analyzed sample_stop_words scenario_df))) k 0 =
    entry_at (similarity (feature_rows 5000 (analyzed sample_stop_words scenario_df))) k 2.
Proof.
  apply (@same_content_same_similarities sample_stop_words scenario_df _ 0 2
           (entry "A" "Movie" "space adventure robots")
           (entry "C" "TV Show" "space adventure robots")
           "space adventure robots").
  - rewrite compute_cosine_similarity_spec. reflexivity.
  - reflexivity.
  - reflexivity.
  - reflexivity.
  - reflexivity.
Defined.

(** Rows that are never non-zero at the same place. *)
Lemma weights_disjoint docs terms doc1 doc2 :
  (forall t, In t doc1 -> In t doc2 -> False) ->
  Forall2 (fun x y => x = 0 \/ y = 0) (weights docs terms doc1) (weights docs terms doc2).
Proof.
  intros Hdis. unfold weights. induction terms as [|t ts IH]; simpl; constructor;
    [|assumption].
  destruct (in_dec string_dec t doc1) as [H1|H1].
  - right. assert (H2 : ~ In t doc2) by (intros H2; eapply Hdis; eauto).
    unfold term_count. rewrite (count_occ_not_In string_dec) in H2.
    rewrite H2. simpl. lra.
  - left. unfold term_count. rewrite (count_occ_not_In string_dec) in H1.
    rewrite H1. simpl. lra.
Qed.

Lemma normalized_disjoint_l u v :
  Forall2 (fun x y => x = 0 \/ y = 0) u v ->
  Forall2 (fun x y => x = 0 \/ y = 0) (normalized u) v.
Proof.
  intros H. unfold normalized.
  destruct (Req_dec_T (sum_squares u) 0) as [|_]; [assumption|].
  generalize (sqrt (sum_squares u)). intros c.
  induction H as [|x y xs ys Hxy _ IH]; simpl; constructor;
    [|assumption].
  destruct Hxy as [->|Hy]; [left | right; assumption].
  unfold Rdiv. apply Rmult_0_l.
Qed.

Lemma Forall2_disjoint_flip u v :
  Forall2 (fun x y => x = 0 \/ y = 0) u v ->
  Forall2 (fun x y => x = 0 \/ y = 0) v u.
Proof.
  induction 1; constructor; tauto.
Qed.

Lemma dot_disjoint u v :
  Forall2 (fun x y => x = 0 \/ y = 0) u v -> dot u v = 0.
Proof.
  unfold dot. induction 1 as [|x y xs ys Hxy _ IH]; simpl; [reflexivity|].
  rewrite IH. destruct Hxy as [->| ->]; lra.
Qed.

(** X11.  Two entries whose contents have no term in common have
    similarity exactly 0. *)
Theorem disjoint_contents_have_zero_similarity
    (stop_words : list string) (data : DataFrame) (M : list (list R))
    (i j : nat) (ei ej : CatalogEntry) (ci cj : string) :
  compute_cosine_similarity stop_words data = Ok M ->
  nth_error data i = Some ei -> nth_error data j = Some ej ->
  content ei = Some ci -> content ej = Some cj ->
  (forall t, In t (analyze stop_words ci) -> In t (analyze stop_words cj) -> False) ->
  entry_at M i j = Some 0.
Proof.
  intros HM Hi Hj Hci Hcj Hdis.
  apply compute_cosine_similarity_Ok in HM. destruct HM as (Hp & _ & ->).
  rewrite entry_at_similarity.
  rewrite (feature_rows_nth_content stop_words data i Hp Hi Hci).
  rewrite (feature_rows_nth_content stop_words data j Hp Hj Hcj).
  f_equal. apply dot_disjoint.
  apply normalized_disjoint_l, normalized_disjoint_l, Forall2_disjoint_flip.
  apply normalized_disjoint_l, normalized_disjoint_l, Forall2_disjoint_flip.
  now apply weights_disjoint.
Qed.

Lemma disjoint_contents_have_zero_similarity_witness :
  entry_at (similarity (feature_rows 5000 (analyzed sample_stop_words duplicate_df))) 1 2 =
  Some 0.
Proof.
  apply (@disjoint_contents_have_zero_similarity sample_stop_words duplicate_df _ 1 2
           (entry "B" "Movie" "space adventure aliens")
           (entry "A" "Movie" "ocean documentary")
           "space adventure aliens" "ocean documentary").
  - rewrite compute_cosine_similarity_spec. reflexivity.
  - reflexivity.
  - reflexivity.
  - reflexivity.
  - reflexivity.
  - simpl. intros t [<-|[<-|[<-|[]]]] [H|[H|[]]]; discriminate.
Defined.


Local Close Scope R_scope.

(** ** The vocabulary *)

Lemma all_terms_In docs t : In t (all_terms docs) <-> In t (concat docs).
Proof.
  unfold all_terms. split; intros H.
  - apply (nodup_In string_dec). revert H. apply Permutation_in, sorted_perm.
  - apply (nodup_In string_dec) in H. revert H.
    apply Permutation_in. symmetry. apply sorted_perm.
Qed.

Lemma all_terms_NoDup docs : NoDup (all_terms docs).
Proof.
  unfold all_terms. eapply Permutation_NoDup.
  - symmetry. apply sorted_perm.
  - apply NoDup_nodup.
Qed.

Lemma limit_features_incl max_features docs terms t :
  In t (limit_features max_features docs terms) -> In t terms.
Proof.
  unfold limit_features. destruct (length terms <=? max_features); [auto|].
  intros H. apply filter_In in H. tauto.
Qed.

Lemma limit_features_NoDup max_features docs terms :
  NoDup terms -> NoDup (limit_features max_features docs terms).
Proof.
  unfold limit_features. destruct (length terms <=? max_features); [auto|].
  apply NoDup_filter.
Qed.

Lemma limit_features_length max_features docs terms :
  NoDup terms -> length (limit_features max_features docs terms) <= max_features.
Proof.
  intros HN. unfold limit_features.
  destruct (Nat.leb_spec (length terms) max_features) as [Hle|_]; [assumption|].
  set (top := firstn max_features (sorted (corpus_count docs) Nat.ltb true terms)).
  transitivity (length top); [|apply firstn_le_length].
  apply NoDup_incl_length; [now apply NoDup_filter|].
  intros t Ht. apply filter_In in Ht. destruct Ht as [_ Ht]. now apply mem_In.
Qed.

Lemma analyzed_In stop_words (data : DataFrame) t :
  In t (concat (analyzed stop_words data)) ->
  exists e c, In e data /\ content e = Some c /\ In t (analyze stop_words c).
Proof.
  intros H. apply in_concat in H. destruct H as (doc & Hdoc & Ht).
  unfold analyzed in Hdoc. apply in_map_iff in Hdoc.
  destruct Hdoc as (e & <- & He). destruct (content e) as [c|] eqn:Hc; [|destruct Ht].
  eauto.
Qed.

(** X13.  The vocabulary never has more than [max_features] terms (5000 in
    the program), holds no term twice and no stop word, and each of its
    terms occurs in the content of some entry. *)
Theorem vocabulary_bounded
    (stop_words : list string) (max_features : nat) (data : DataFrame) :
  length (vocabulary max_features (analyzed stop_words data)) <= max_features /\
  NoDup (vocabulary max_features (analyzed stop_words data)) /\
  forall t, In t (vocabulary max_features (analyzed stop_words data)) ->
    mem t stop_words = false /\
    exists e c, In e data /\ content e = Some c /\ In t (analyze stop_words c).
Proof.
  unfold vocabulary. split; [|split].
  - apply limit_features_length, all_terms_NoDup.
  - apply limit_features_NoDup, all_terms_NoDup.
  - intros t Ht. apply limit_features_incl, all_terms_In in Ht.
    destruct (analyzed_In _ _ _ Ht) as (e & c & He & Hc & Hin). split; [|eauto].
    unfold analyze in Hin. apply filter_In in Hin. destruct Hin as [_ Hin].
    now apply negb_true_iff in Hin.
Qed.

(** ** The poster lookup, for every network *)








(** A lookup that found the network down is remembered: the next call for
    the same title returns [None] from the cache although the network now
    has a poster. *)
Example failed_lookup_is_remembered :
  let first := fetch_poster_cached (Some "secret"%string) network_down [] "A" "Movie" in
  fst first = Ok None /\
  fetch_poster_cached (Some "secret"%string) network_with_poster (snd first) "A" "Movie" =
    (Ok None, snd first) /\
  fst (fetch_poster_cached (Some "secret"%string) network_with_poster [] "A" "Movie") =
    Ok (Some "https://image.tmdb.org/t/p/w500/abc.jpg"%string).
Proof.
  repeat split.
Qed.

(** ** The page *)

Lemma ascii_compare_Lt_trans a b c :
  Ascii.compare a b = Lt -> Ascii.compare b c = Lt -> Ascii.compare a c = Lt.
Proof.
  unfold Ascii.compare. rewrite !N.compare_lt_iff. apply N.lt_trans.
Qed.

Lemma string_compare_Lt_trans : forall a b c,
  String.compare a b = Lt -> String.compare b c = Lt -> String.compare a c = Lt.
Proof.
  induction a as [|x a IH]; intros [|y b] [|z c]; simpl; try discriminate; auto.
  destruct (Ascii.compare x y) eqn:Hxy; try discriminate.
  - apply Ascii.compare_eq_iff in Hxy. subst y.
    destruct (Ascii.compare x z); try discriminate; auto. apply IH.
  - intros _. destruct (Ascii.compare y z) eqn:Hyz; try discriminate.
    + apply Ascii.compare_eq_iff in Hyz. subst z. now rewrite Hxy.
    + now rewrite (ascii_compare_Lt_trans _ _ _ Hxy Hyz).
Qed.

Lemma string_ltb_Lt a b : String.ltb a b = true <-> String.compare a b = Lt.
Proof.
  unfold String.ltb. destruct (String.compare a b); split; congruence.
Qed.

Lemma string_ltb_asym a b : String.ltb a b = true -> String.ltb b a = false.
Proof.
  rewrite string_ltb_Lt. intros H. unfold String.ltb.
  rewrite String.compare_antisym, H. reflexivity.
Qed.

Lemma string_ltb_negtrans a b c :
  String.ltb a b = false -> String.ltb b c = false -> String.ltb a c = false.
Proof.
  intros Hab Hbc. destruct (String.ltb a c) eqn:Hac; [|reflexivity].
  apply string_ltb_Lt in Hac.
  (* [a < c]: either [a < b], or [b <= a < c] *)
  destruct (String.compare a b) eqn:Cab.
  - apply String.compare_eq_iff in Cab. subst b.
    apply string_ltb_Lt in Hac. congruence.
  - apply string_ltb_Lt in Cab. congruence.
  - assert (Cba : String.compare b a = Lt).
    { rewrite String.compare_antisym, Cab. reflexivity. }
    pose proof (string_compare_Lt_trans _ _ _ Cba Hac) as Cbc.
    apply string_ltb_Lt in Cbc. congruence.
Qed.

(** With [reverse=False] the keys ascend, when [<] is a strict weak order. *)
Lemma sorted_asc_ascending {A K : Type} (key : A -> K) (ltb : K -> K -> bool) l :
  (forall x y, ltb x y = true -> ltb y x = false) ->
  (forall x y z, ltb x y = false -> ltb y z = false -> ltb x z = false) ->
  StronglySorted (fun a b => ltb (key b) (key a) = false) (sorted key ltb false l).
Proof.
  intros Hasym Htrans. induction l as [|x xs IH]; simpl; [constructor|].
  induction IH as [|y ys Hys IHys Hy]; simpl.
  - repeat constructor.
  - destruct (ltb (key y) (key x)) eqn:E.
    + constructor; [assumption|].
      eapply Permutation_Forall.
      { symmetry. apply insert_sorted_perm. }
      constructor; auto.
    + constructor; [constructor; assumption|].
      constructor; [assumption|].
      revert Hy. apply Forall_impl. intros z Hz. eapply Htrans; eauto.
Qed.

Lemma filtered_titles_In (df : DataFrame) content_type t :
  In t (filtered_titles df content_type) <->
  exists e, In e df /\ type e = content_type /\ title e = t.
Proof.
  unfold filtered_titles. split.
  - intros H. apply (Permutation_in _ (sorted_perm _ _ _ _)) in H.
    apply in_map_iff in H. destruct H as (e & Ht & He).
    apply filter_In in He. destruct He as [He Hty].
    apply String.eqb_eq in Hty. eauto.
  - intros (e & He & Hty & Ht).
    apply (Permutation_in _ (Permutation_sym (sorted_perm _ _ _ _))).
    apply in_map_iff. exists e. split; [assumption|].
    apply filter_In. split; [assumption|]. now apply String.eqb_eq.
Qed.

(** X17.  The select box offers exactly the titles of the entries of the
    chosen content type, once per entry, in ascending order. *)
Theorem filtered_titles_sorted (df : DataFrame) (content_type : string) :
  Permutation (filtered_titles df content_type)
    (map title (filter (fun e => String.eqb (type e) content_type) df)) /\
  StronglySorted (fun a b => String.ltb b a = false) (filtered_titles df content_type) /\
  (forall t, In t (filtered_titles df content_type) <->
             exists e, In e df /\ type e = content_type /\ title e = t).
Proof.
  split; [apply sorted_perm|]. split.
  - apply (sorted_asc_ascending (fun t : string => t) String.ltb).
    + apply string_ltb_asym.
    + apply string_ltb_negtrans.
  - apply filtered_titles_In.
Qed.

Lemma nth_default_In {A : Type} (l : list A) d n : In d l -> In (nth n l d) l.
Proof.
  intros Hd. destruct (Nat.lt_ge_cases n (length l)) as [Hlt|Hge].
  - now apply nth_In.
  - now rewrite nth_overflow.
Qed.

Lemma selectbox_In options choice t :
  selectbox options choice = Some t -> In t options.
Proof.
  unfold selectbox. destruct options as [|first rest]; [discriminate|].
  intros H. assert (Ht : t = nth choice (first :: rest) first) by congruence.
  rewrite Ht. apply (nth_default_In (first :: rest) first choice).
  left. reflexivity.
Qed.

(** X18.  Whatever option of the select box is chosen, the entry shown is
    the first row of the catalog that carries the selected title, and the
    title is known to the title index: the page never fails with
    [KeyError]. *)
Theorem selected_title_resolves
    (df : DataFrame) (content_type : string) (choice : nat) (t : string) :
  selectbox (filtered_titles df content_type) choice = Some t ->
  (exists k m,
     select_movie df (Some t) = Ok m /\
     nth_error df k = Some m /\ title m = t /\
     forall j e, j < k -> nth_error df j = Some e -> title e <> t) /\
  exists sel, Series_getitem (indices df) t = Ok sel.
Proof.
  intros Hsel. apply selectbox_In in Hsel.
  apply filtered_titles_In in Hsel.
  destruct Hsel as (e & He & _ & Ht).
  assert (Hin : In t (df_title df)).
  { unfold df_title. rewrite <- Ht. now apply in_map. }
  split.
  - destruct (select_movie_present df t Hin) as [m Hm].
    destruct (select_movie_first df t Hm) as (k & Hk & Htm & Hfirst).
    exists k, m. auto.
  - unfold Series_getitem. fold (labelled df t).
    destruct (labelled df t) as [|[l v] [|lv2 rest]] eqn:Hl; eauto.
    exfalso. apply In_nth_error in He. destruct He as [k Hk].
    assert (Hk' : In (t, k) (labelled df t)) by (apply labelled_In; eauto).
    rewrite Hl in Hk'. destruct Hk'.
Qed.

Lemma selected_title_resolves_witness :
  (exists k m,
     select_movie movies_df (Some "B"%string) = Ok m /\
     nth_error movies_df k = Some m /\ title m = "B"%string /\
     forall j e, j < k -> nth_error movies_df j = Some e -> title e <> "B"%string) /\
  exists sel, Series_getitem (indices movies_df) "B" = Ok sel.
Proof.
  apply (@selected_title_resolves movies_df "Movie" 1 "B").
  reflexivity.
Defined.


Lemma Forall2_In_r {A B : Type} (P : A -> B -> Prop) l l' y :
  Forall2 P l l' -> In y l' -> exists x, In x l /\ P x y.
Proof.
  induction 1 as [|x y' l l' HP _ IH]; intros Hy; [destruct Hy|].
  destruct Hy as [<-|Hy].
  - exists x. split; [left; reflexivity | assumption].
  - destruct (IH Hy) as (x' & Hx' & HP'). exists x'. split; [now right | assumption].
Qed.


Section PageFacts.
Context {score : Type} (score_ltb : score -> score -> bool).
Variables (TMDB_API_KEY : option string) (network : request -> reply).
Variables (df : DataFrame) (cosine_sim : list (list score)).


(** X20.  When no entry of the catalog has the content type chosen in the
    sidebar, the select box has no option and the page fails with
    [IndexError]. *)
Theorem page_without_entry_of_type (content_type : string) (choice : nat) :
  (forall e, In e df -> type e <> content_type) ->
  page score_ltb TMDB_API_KEY network df cosine_sim content_type choice =
  Raise IndexError.
Proof.
  intros Hnone. unfold page.
  destruct (filtered_titles df content_type) as [|t ts] eqn:Hf; [reflexivity|].
  exfalso. assert (Ht : In t (filtered_titles df content_type)).
  { rewrite Hf. left. reflexivity. }
  apply filtered_titles_In in Ht. destruct Ht as (e & He & Hty & _).
  exact (Hnone e He Hty).
Qed.
End PageFacts.


Lemma page_without_entry_of_type_witness :
  page Z.ltb (Some "secret"%string) network_with_poster movies_df movies_sim "TV Show" 0 =
  Raise IndexError.
Proof.
  apply (@page_without_entry_of_type Z Z.ltb (Some "secret"%string)
           network_with_poster movies_df movies_sim "TV Show" 0).
  intros e [<-|[<-|[]]]; discriminate.
Defined.

Lemma mapM_ext {A B : Type} (f g : A -> result B) l :
  (forall x, f x = g x) -> mapM f l = mapM g l.
Proof.
  intros H. induction l as [|x xs IH]; simpl; [reflexivity|].
  now rewrite H, IH.
Qed.

(** X21.  Without an API key the page does not depend on the network: it is
    the same page whatever the network would answer, and every poster on it
    is missing, so that the placeholder is drawn. *)
Theorem page_without_api_key
    {score : Type} (score_ltb : score -> score -> bool)
    (TMDB_API_KEY : option string) (network network' : request -> reply)
    (df : DataFrame) (cosine_sim : list (list score))
    (selected_title : option string) :
  key_set TMDB_API_KEY = false ->
  title_mode score_ltb TMDB_API_KEY network df cosine_sim selected_title =
    title_mode score_ltb TMDB_API_KEY network' df cosine_sim selected_title /\
  forall view,
    title_mode score_ltb TMDB_API_KEY network df cosine_sim selected_title = Ok view ->
    shows_image (movie_poster view) = false /\
    Forall (fun c => shows_image (poster c) = false) (cards view).
Proof.
  intros Hkey.
  assert (Hrun : forall net t ty,
            run net (fetch_poster TMDB_API_KEY t ty) = Ok None).
  { intros net t ty. now rewrite fetch_poster_without_key. }
  split.
  - unfold title_mode. destruct selected_title as [t|]; [|reflexivity].
    destruct (select_movie df (Some t)) as [m|]; [|reflexivity]. cbn [bind].
    rewrite !Hrun. cbn [bind].
    destruct (recommend_by_title_default score_ltb df cosine_sim t); [|reflexivity].
    cbn [bind]. rewrite (mapM_ext (render_card TMDB_API_KEY network)
                           (render_card TMDB_API_KEY network')); [reflexivity|].
    intros ir. unfold render_card. now rewrite !Hrun.
  - intros view. unfold title_mode. destruct selected_title as [t|]; [|discriminate].
    intros H. bind_inv H as m Hm. rewrite Hrun in H. cbn [bind] in H.
    bind_inv H as recs Hrecs. bind_inv H as cs Hcs. injection H as <-. simpl.
    split; [reflexivity|].
    apply mapM_Ok_Forall2 in Hcs. apply Forall_forall. intros c Hc.
    destruct (@Forall2_In_r _ _ _ _ _ c Hcs Hc) as (ir & _ & Hir).
    unfold render_card in Hir. rewrite Hrun in Hir. cbn [bind] in Hir.
    injection Hir as <-. reflexivity.
Qed.

Lemma page_without_api_key_witness :
  title_mode Z.ltb None network_with_poster movies_df movies_sim (Some "A"%string) =
    title_mode Z.ltb None network_with_array_body movies_df movies_sim (Some "A"%string) /\
  forall view,
    title_mode Z.ltb None network_with_poster movies_df movies_sim (Some "A"%string) =
      Ok view ->
    shows_image (movie_poster view) = false /\
    Forall (fun c => shows_image (poster c) = false) (cards view).
Proof.
  apply (@page_without_api_key Z Z.ltb None network_with_poster network_with_array_body
           movies_df movies_sim (Some "A"%string)).
  reflexivity.
Defined.

(** ** The page's query on the program's own matrix *)

(** X22.  On a catalog whose contents are all present and not all without
    terms, the page's query for a title that labels exactly one row returns
    the smaller of six and the number of candidates: rows of the catalog of
    the type of the selected entry, the selected entry not among them. *)
Theorem recommend_on_computed_matrix
    (stop_words : list string) (df : DataFrame) (t : string)
    (idx : nat) (e : CatalogEntry) :
  forallb present df = true ->
  concat (analyzed stop_words df) <> [] ->
  nth_error df idx = Some e -> title e = t ->
  (forall j e', nth_error df j = Some e' -> title e' = t -> j = idx) ->
  exists rows,
    recommend stop_words df t = Ok rows /\
    length rows = Nat.min 6 (length (candidates df (type e) idx)) /\
    Forall (fun r => nth_error df (fst r) = Some (snd r) /\
                     type (snd r) = type e /\ fst r <> idx) rows.
Proof.
  intros Hp Hterms He Ht Huniq.
  assert (HM : compute_cosine_similarity stop_words df =
               Ok (similarity (feature_rows 5000 (analyzed stop_words df)))).
  { rewrite compute_cosine_similarity_spec, Hp.
    destruct (concat (analyzed stop_words df)); [contradiction | reflexivity]. }
  destruct (compute_cosine_similarity_row _ _ _ HM He) as (srow & Hrow & Hlen).
  unfold recommend, recommend_by_title_default. rewrite HM. cbn [bind].
  assert (Hle : length srow <= length df) by (rewrite Hlen; apply le_n).
  pose proof (@recommend_by_title_unique R Rltb df _ t 6 idx e srow
                He Ht Huniq Hrow Hle) as Hrec.
  destruct (recommend_by_title_Ok_rows _ _ _ _ _ Hrec)
    as (idx' & e' & srow' & Hsel' & He' & _ & _ & Hcand).
  assert (idx' = idx).
  { apply getitem_Scalar_iff in Hsel'. destruct Hsel' as (_ & Hu). symmetry.
    eapply Hu; eauto. }
  subst idx'. assert (e' = e) by congruence. subst e'.
  rewrite Hrec. eexists. split; [reflexivity|]. split.
  - pose proof (filtered_indices Rltb df (type e) idx srow Hlen) as HP.
    rewrite length_map. unfold slice_to.
    change (0 <=? 6)%Z with true. cbv iota. change (Z.to_nat 6) with 6.
    rewrite length_firstn, <- (Permutation_length HP), length_map. reflexivity.
  - revert Hcand. apply Forall_impl. intros [k ek] [Hk Hc]. simpl in *.
    unfold is_candidate in Hc. rewrite Hk in Hc.
    apply andb_prop in Hc. destruct Hc as [Hty Hne].
    apply String.eqb_eq in Hty. apply negb_true_iff, Nat.eqb_neq in Hne. auto.
Qed.

Lemma recommend_on_computed_matrix_witness :
  exists rows,
    recommend sample_stop_words scenario_df "A" = Ok rows /\
    length rows =
      Nat.min 6 (length (candidates scenario_df
                           (type (entry "A" "Movie" "space adventure robots")) 0)) /\
    Forall (fun r => nth_error scenario_df (fst r) = Some (snd r) /\
                     type (snd r) = type (entry "A" "Movie" "space adventure robots") /\
                     fst r <> 0) rows.
Proof.
  apply (@recommend_on_computed_matrix sample_stop_words scenario_df "A" 0
           (entry "A" "Movie" "space adventure robots")).
  - reflexivity.
  - vm_compute. discriminate.
  - reflexivity.
  - reflexivity.
  - intros j e' Hj Ht.
    destruct j as [|[|[|j]]]; simpl in Hj; [reflexivity | | |].
    + injection Hj as <-. discriminate.
    + injection Hj as <-. discriminate.
    + destruct j; discriminate.
Defined.
